(** * campus-confessions: the feed query and the write routes of [server.js]

    The server keeps three SQLite tables ([posts], [reactions], [replies]) and
    answers every route with one or more SQL statements followed by a little
    JavaScript.  This development embeds the statements as functions over
    lists of rows and the JavaScript around them as functions over the
    resulting values.

    Conventions of the embedding.
    - A table is the list of its rows in rowid order.
    - SQLite INTEGER values are [Z] (the counters grow by one per request and
      stay far inside 64 bits); REAL values are exact rationals [Qc], so every
      statement about a REAL sort key is a statement about the exact quotient
      the expression denotes.
    - A DATETIME column filled by [CURRENT_TIMESTAMP] holds the text
      ['YYYY-MM-DD HH:MM:SS']; it is kept as the number of whole seconds it
      denotes, and comparing two such texts is comparing the two numbers.
    - The evaluation instant ['now'] is a number of milliseconds, the
      resolution at which SQLite reads the clock; one statement sees one
      value of it.
    - [ORDER BY] constrains the result, it does not compute it: SQLite
      leaves undefined the order of two rows on which all ordering terms
      agree, so any arrangement of the selected rows that respects the terms
      is a result of the statement.  The feed query is therefore a relation,
      next to which an executable instance (a merge sort of the table scan)
      is given and shown to satisfy it.
    - The statements of the routes always run to completion on these
      tables; the [if (err)] branches of the callbacks are left out.
    - The post identifier in a route ([:id]) is the integer its path segment
      spells. *)

From Stdlib Require Import ZArith QArith Qcanon Lia.
From stdpp Require Import base numbers list strings gmap sorting.

Local Open Scope Z_scope.

(** ** SQL values used by the ordering terms *)

(** An ordering term evaluates to NULL or to a number. *)
Definition sqlkey : Type := option Qc.

Definition INTEGER (n : Z) : sqlkey := Some (Qc_of_Z n).
Definition REAL (q : Qc) : sqlkey := Some q.

(** [a / b] in SQLite: NULL when the divisor is zero. *)
Definition sql_div (a b : Qc) : sqlkey :=
  if decide (b = Qc_of_Z 0) then None else Some (a / b)%Qc.

(** SQLite's comparison for sorting: NULL is smaller than every number. *)
Definition key_lt (a b : sqlkey) : bool :=
  match a, b with
  | None, None => false
  | None, Some _ => true
  | Some _, None => false
  | Some x, Some y => bool_decide (x < y)%Qc
  end.

(** [ORDER BY t1 DESC, t2 DESC, ...]: may row [a] stand before row [b]? *)
Fixpoint order_by_desc {A} (terms : list (A → sqlkey)) (a b : A) : bool :=
  match terms with
  | [] => true
  | t :: ts =>
      if key_lt (t b) (t a) then true
      else if key_lt (t a) (t b) then false
      else order_by_desc ts a b
  end.

Definition precedes {A} (terms : list (A → sqlkey)) : relation A :=
  λ a b, order_by_desc terms a b = true.

Global Instance precedes_dec {A} (terms : list (A → sqlkey)) :
  RelDecision (precedes terms).
Proof. intros a b. unfold precedes. apply _. Defined.


(** ** Time *)

Definition MS_PER_DAY : Z := 86400000.
Definition MS_PER_HOUR : Z := 3600000.

(** Julian day number of the Unix epoch, times two (2440587.5 days). *)
Definition UNIX_EPOCH_JD2 : Z := 4881175.

(** [julianday(t)] for an instant given in milliseconds since the Unix
    epoch: a fractional number of days. *)
Definition julianday (ms : Z) : Qc :=
  (Qc_of_Z UNIX_EPOCH_JD2 / Qc_of_Z 2 + Qc_of_Z ms / Qc_of_Z MS_PER_DAY)%Qc.

(** The instant denoted by a stored ['YYYY-MM-DD HH:MM:SS'] text. *)
Definition ms_of_timestamp (ts : Z) : Z := ts * 1000.

(** [datetime('now', '<h> hours')] and [CURRENT_TIMESTAMP]: the shifted
    instant rendered as ['YYYY-MM-DD HH:MM:SS'], the milliseconds dropped. *)
Definition datetime_now (now : Z) (hours : Z) : Z :=
  (now + hours * MS_PER_HOUR) `div` 1000.

Definition CURRENT_TIMESTAMP (now : Z) : Z := datetime_now now 0.

(** ** Strings of the request bodies *)

(** Post and reply texts are kept as their UTF-16 code units, on which
    [trim] and [length] work. *)
Definition jstext : Type := list N.

(** White space and line terminators removed by [String.prototype.trim]. *)
Definition is_js_space (c : N) : bool :=
  let c := Z.of_N c in
  bool_decide (c ∈ [9; 10; 11; 12; 13; 32; 160; 5760; 8232; 8233; 8239; 8287; 12288; 65279])
  || bool_decide (8192 ≤ c ≤ 8202).

Fixpoint trim_start (s : jstext) : jstext :=
  match s with
  | c :: s' => if is_js_space c then trim_start s' else s
  | [] => []
  end.

Definition trim (s : jstext) : jstext :=
  reverse (trim_start (reverse (trim_start s))).

(** ** The tables *)

Module Posts.
Record row := mk {
  id : Z;
  text : jstext;
  mood : string;
  likes : Z;
  reposts : Z;
  image : option string;
  timestamp : Z
}.
End Posts.

Module Reactions.
Record row := mk {
  id : Z;
  post_id : Z;
  type : string;
  timestamp : Z
}.
End Reactions.

Module Replies.
Record row := mk {
  id : Z;
  post_id : Z;
  text : jstext;
  image : option string;
  timestamp : Z
}.
End Replies.

(** The database: the three tables and, for each, the largest rowid handed
    out so far (the [sqlite_sequence] entry behind AUTOINCREMENT). *)
Record database := mkdb {
  posts : list Posts.row;
  reactions : list Reactions.row;
  replies : list Replies.row;
  posts_seq : Z;
  reactions_seq : Z;
  replies_seq : Z
}.

(** ** Grouped counts and the helper [getReactionsForPosts] *)

(** [SELECT k, COUNT( * ) ... GROUP BY k] over the listed key values: one
    group per distinct key, holding the number of rows that carry it. *)
Definition group_count `{Countable K} (keys : list K) : gmap K Z :=
  foldr (λ k m, <[k := default 0 (m !! k) + 1]> m) ∅ keys.

(** [COALESCE(x, 0)] *)
Definition COALESCE0 (x : option Z) : Z := default 0 x.

Definition reactions_of_type (db : database) (ty : string) : list Reactions.row :=
  filter (λ r, Reactions.type r = ty) (reactions db).

(** The rows of [SELECT post_id, type, COUNT( * ) as count FROM reactions
    WHERE post_id IN (ids) GROUP BY post_id, type]. *)
Definition reaction_count_rows (db : database) (ids : list Z) : list (Z * string * Z) :=
  map_to_list (group_count
    ((λ r, (Reactions.post_id r, Reactions.type r)) <$>
       filter (λ r, Reactions.post_id r ∈ ids) (reactions db))).

(** The body of [rows.forEach]: create the inner object on first use, then
    set the count of the row's type. *)
Definition reactions_map_step (map : gmap Z (gmap string Z)) (r : Z * string * Z)
    : gmap Z (gmap string Z) :=
  let '(post_id, type, count) := r in
  let inner := default ∅ (map !! post_id) in
  <[post_id := <[type := count]> inner]> map.

Definition getReactionsForPosts (db : database) (ids : list Z) : gmap Z (gmap string Z) :=
  if decide (ids = []) then ∅
  else foldl reactions_map_step ∅ (reaction_count_rows db ids).

(** ** GET /api/posts *)

(** [req.query.sort || 'recent'] *)
Definition sortType_of (sort : option string) : string :=
  match sort with
  | Some s => if decide (s = "") then "recent" else s
  | None => "recent"
  end.

(** A row of [baseQuery]: [posts.*] and the six derived columns. *)
Record feed_row := mkrow {
  post : Posts.row;
  reaction_count : Z;
  reply_count : Z;
  love_count : Z;
  happy_count : Z;
  angry_count : Z;
  sad_count : Z
}.

(** The [SELECT] list over the six [LEFT JOIN]s.  Each joined subquery is
    grouped by [post_id], so a post meets at most one row of it: the join
    is a lookup, NULL when the post has no group. *)
Definition select_row (db : database) (p : Posts.row) : feed_row :=
  let r := group_count (Reactions.post_id <$> reactions db) in
  let rep := group_count (Replies.post_id <$> replies db) in
  let of_type ty := group_count (Reactions.post_id <$> reactions_of_type db ty) in
  {| post := p;
     reaction_count := COALESCE0 (r !! Posts.id p);
     reply_count := COALESCE0 (rep !! Posts.id p);
     love_count := COALESCE0 (of_type "love" !! Posts.id p);
     happy_count := COALESCE0 (of_type "haha" !! Posts.id p);
     angry_count := COALESCE0 (of_type "angry" !! Posts.id p);
     sad_count := COALESCE0 (of_type "sad" !! Posts.id p) |}.

(** [timeFilter], as a predicate on the post. *)
Definition timeFilter (sortType : string) (now : Z) (p : Posts.row) : bool :=
  if decide (sortType = "rising") then
    bool_decide (datetime_now now (-2) ≤ Posts.timestamp p)
  else if decide (sortType = "hot") then
    bool_decide (datetime_now now (-6) ≤ Posts.timestamp p)
  else true.

(** The ordering terms.  They are written over the output columns: the
    names [love_count], [happy_count], [angry_count], [sad_count] in the
    controversial term resolve to the aliases of the [SELECT] list, which
    are never NULL, so that the [COALESCE] around them changes nothing; and
    [COALESCE(r.reaction_count, 0)], [COALESCE(rep.reply_count, 0)] are the
    expressions behind the aliases [reaction_count] and [reply_count]. *)
Definition engagement (r : feed_row) : Z :=
  reaction_count r + Posts.reposts (post r) + Posts.likes (post r) + reply_count r.

Definition by_timestamp (r : feed_row) : sqlkey :=
  INTEGER (Posts.timestamp (post r)).

Definition by_engagement (r : feed_row) : sqlkey :=
  INTEGER (engagement r).

Definition by_controversy (r : feed_row) : sqlkey :=
  if bool_decide (0 < love_count r + happy_count r) then
    REAL (Qc_of_Z (angry_count r + sad_count r) * Qc_of_Z 1
          / Qc_of_Z (love_count r + happy_count r))%Qc
  else INTEGER 0.

Definition by_quality (r : feed_row) : sqlkey :=
  REAL (Qc_of_Z (Posts.likes (post r) + Posts.reposts (post r) * 2)
        + Qc_of_Z (reaction_count r) * (Qc_of_Z 3 / Qc_of_Z 2)
        + Qc_of_Z (reply_count r) * (Qc_of_Z 1 / Qc_of_Z 2))%Qc.

Definition by_heat (now : Z) (r : feed_row) : sqlkey :=
  sql_div (Qc_of_Z (engagement r) * Qc_of_Z 1000)%Qc
          (julianday now - julianday (ms_of_timestamp (Posts.timestamp (post r))))%Qc.

Definition order (sortType : string) (now : Z) : list (feed_row → sqlkey) :=
  if decide (sortType = "new") then [by_timestamp]
  else if decide (sortType = "rising") then [by_engagement; by_timestamp]
  else if decide (sortType = "controversial") then [by_controversy; by_engagement]
  else if decide (sortType = "top") then [by_engagement]
  else if decide (sortType = "best") then [by_quality]
  else if decide (sortType = "hot") then [by_heat now]
  else [by_timestamp].

(** The rows selected by [baseQuery], in table-scan order, before
    [ORDER BY]. *)
Definition selected_rows (sortType : string) (db : database) (now : Z) : list feed_row :=
  select_row db <$> filter (λ p, timeFilter sortType now p = true) (posts db).

(** [rows] is a result of [baseQuery]. *)
Definition baseQuery (sortType : string) (db : database) (now : Z)
    (rows : list feed_row) : Prop :=
  rows ≡ₚ selected_rows sortType db now ∧
  StronglySorted (precedes (order sortType now)) rows.

(** An element of the JSON answer: the row and its [reactions] object. *)
Record feed_item := mkitem {
  row : feed_row;
  item_reactions : gmap string Z
}.

Definition respond (db : database) (rows : list feed_row) : list feed_item :=
  let reactionsMap := getReactionsForPosts db ((λ r, Posts.id (post r)) <$> rows) in
  (λ r, {| row := r;
           item_reactions := default ∅ (reactionsMap !! Posts.id (post r)) |}) <$> rows.

(** [answer] is a possible answer of [GET /api/posts?sort=...]. *)
Definition get_posts (sort : option string) (db : database) (now : Z)
    (answer : list feed_item) : Prop :=
  ∃ rows, baseQuery (sortType_of sort) db now rows ∧ answer = respond db rows.

(** An executable instance: sort the scan with a merge sort. *)
Definition baseQuery_scan (sortType : string) (db : database) (now : Z) : list feed_row :=
  merge_sort (precedes (order sortType now)) (selected_rows sortType db now).

Definition get_posts_scan (sort : option string) (db : database) (now : Z) : list feed_item :=
  respond db (baseQuery_scan (sortType_of sort) db now).

(** ** The write routes *)

(** What a handler sends: a JSON body, or an error status with its
    message. *)
Inductive response (A : Type) : Type :=
  | Json (body : A)
  | Status (code : Z) (error : string).
Global Arguments Json {A} body.
Global Arguments Status {A} code error.

Definition MAX_LENGTH : nat := 280.

(** The rowid AUTOINCREMENT hands out: one more than the largest the table
    has ever held. *)
Definition next_rowid (seq : Z) (ids : list Z) : Z :=
  foldr Z.max seq ids + 1.

Definition validMoods : list string :=
  ["none"; "love"; "happy"; "sad"; "angry"; "anxious"; "excited"].

Definition validTypes : list string :=
  ["love"; "haha"; "sad"; "angry"; "fire"].

(** [validMoods.includes(mood) ? mood : 'none'] *)
Definition safeMood (mood : option string) : string :=
  match mood with
  | Some m => if bool_decide (m ∈ validMoods) then m else "none"
  | None => "none"
  end.

(** [req.file ? `/uploads/${req.file.filename}` : null] *)
Definition imagePath (file : option string) : option string :=
  (λ filename, "/uploads/" +:+ filename) <$> file.

(** [!text || !text.trim()] *)
Definition is_blank (text : option jstext) : bool :=
  match text with
  | None => true
  | Some t => bool_decide (t = []) || bool_decide (trim t = [])
  end.

(** POST /api/posts.  The answer carries the inserted row. *)
Definition create_post (text : option jstext) (mood : option string)
    (file : option string) (now : Z) (db : database)
    : response Posts.row * database :=
  if is_blank text then (Status 400 "Post cannot be empty", db)
  else
    let trimmed := trim (default [] text) in
    if bool_decide (MAX_LENGTH < length trimmed)%nat then
      (Status 400 "Max 280 characters", db)
    else
      let lastID := next_rowid (posts_seq db) (Posts.id <$> posts db) in
      let p := {| Posts.id := lastID; Posts.text := trimmed;
                  Posts.mood := safeMood mood; Posts.likes := 0;
                  Posts.reposts := 0; Posts.image := imagePath file;
                  Posts.timestamp := CURRENT_TIMESTAMP now |} in
      (Json p,
       {| posts := posts db ++ [p]; reactions := reactions db;
          replies := replies db; posts_seq := lastID;
          reactions_seq := reactions_seq db; replies_seq := replies_seq db |}).

(** POST /api/posts/:id/like: [UPDATE posts SET likes = likes + 1 WHERE
    id = ?], then [SELECT likes FROM posts WHERE id = ?].  The rows the
    update changes are the rows the select finds: none of them is
    [this.changes === 0], answered 404. *)
Definition like_row (id : Z) (p : Posts.row) : Posts.row :=
  if decide (Posts.id p = id) then
    {| Posts.id := Posts.id p; Posts.text := Posts.text p; Posts.mood := Posts.mood p;
       Posts.likes := Posts.likes p + 1; Posts.reposts := Posts.reposts p;
       Posts.image := Posts.image p; Posts.timestamp := Posts.timestamp p |}
  else p.

Definition like_post (id : Z) (db : database) : response Z * database :=
  let db' := {| posts := like_row id <$> posts db; reactions := reactions db;
                replies := replies db; posts_seq := posts_seq db;
                reactions_seq := reactions_seq db; replies_seq := replies_seq db |} in
  match filter (λ p, Posts.id p = id) (posts db') with
  | [] => (Status 404 "Not found", db')
  | row :: _ => (Json (Posts.likes row), db')
  end.

(** POST /api/posts/:id/react.  The [INSERT] runs without the foreign key
    being enforced: the server never issues [PRAGMA foreign_keys = ON], and
    SQLite leaves the constraint unchecked unless asked. *)
Definition react (id : Z) (type : option string) (now : Z) (db : database)
    : response (gmap string Z) * database :=
  match type with
  | Some ty =>
      if bool_decide (ty ∈ validTypes) then
        let lastID := next_rowid (reactions_seq db) (Reactions.id <$> reactions db) in
        let r := {| Reactions.id := lastID; Reactions.post_id := id;
                    Reactions.type := ty;
                    Reactions.timestamp := CURRENT_TIMESTAMP now |} in
        let db' := {| posts := posts db; reactions := reactions db ++ [r];
                      replies := replies db; posts_seq := posts_seq db;
                      reactions_seq := lastID; replies_seq := replies_seq db |} in
        let rows := map_to_list (group_count
          (Reactions.type <$> filter (λ x, Reactions.post_id x = id) (reactions db'))) in
        (Json (foldl (λ reactions r, <[r.1 := r.2]> reactions) ∅ rows), db')
      else (Status 400 "Invalid reaction", db)
  | None => (Status 400 "Invalid reaction", db)
  end.

(** POST /api/posts/:id/reply, under the same unenforced foreign key. *)
Definition reply (id : Z) (text : option jstext) (file : option string)
    (now : Z) (db : database) : response Replies.row * database :=
  if is_blank text then (Status 400 "Reply cannot be empty", db)
  else
    let lastID := next_rowid (replies_seq db) (Replies.id <$> replies db) in
    let r := {| Replies.id := lastID; Replies.post_id := id;
                Replies.text := trim (default [] text);
                Replies.image := imagePath file;
                Replies.timestamp := CURRENT_TIMESTAMP now |} in
    (Json r,
     {| posts := posts db; reactions := reactions db;
        replies := replies db ++ [r]; posts_seq := posts_seq db;
        reactions_seq := reactions_seq db; replies_seq := lastID |}).

(** DELETE /api/posts/:id.  [postId] is [Some n] when the path segment is
    the decimal numeral of [n], and [None] when [parseInt] makes nothing of
    it.  Three statements run one after the other, each on the store the
    previous one left. *)
Definition delete_replies (id : Z) (db : database) : database :=
  {| posts := posts db; reactions := reactions db;
     replies := filter (λ r, Replies.post_id r ≠ id) (replies db);
     posts_seq := posts_seq db; reactions_seq := reactions_seq db;
     replies_seq := replies_seq db |}.

Definition delete_reactions (id : Z) (db : database) : database :=
  {| posts := posts db;
     reactions := filter (λ r, Reactions.post_id r ≠ id) (reactions db);
     replies := replies db; posts_seq := posts_seq db;
     reactions_seq := reactions_seq db; replies_seq := replies_seq db |}.

Definition delete_posts_row (id : Z) (db : database) : database :=
  {| posts := filter (λ p, Posts.id p ≠ id) (posts db);
     reactions := reactions db; replies := replies db;
     posts_seq := posts_seq db; reactions_seq := reactions_seq db;
     replies_seq := replies_seq db |}.

Definition delete_post (postId : option Z) (db : database)
    : response Z * database :=
  match postId with
  | None => (Status 400 "Invalid post ID", db)
  | Some id =>
      let db1 := delete_replies id db in
      let db2 := delete_reactions id db1 in
      let db3 := delete_posts_row id db2 in
      let changes := (length (posts db2) - length (posts db3))%nat in
      if decide (changes = 0%nat) then (Status 404 "Post not found", db3)
      else (Json id, db3)
  end.

(** ** Recounting the events *)

(** What a recount of the events gives for a post: the number of rows of
    the table that name it. *)
Definition count_reactions (db : database) (id : Z) : Z :=
  Z.of_nat (length (filter (λ r, Reactions.post_id r = id) (reactions db))).

Definition count_reactions_of_type (db : database) (id : Z) (ty : string) : Z :=
  Z.of_nat (length (filter (λ r, Reactions.post_id r = id ∧ Reactions.type r = ty)
                           (reactions db))).

Definition count_replies (db : database) (id : Z) : Z :=
  Z.of_nat (length (filter (λ r, Replies.post_id r = id) (replies db))).

(** Reading [map[post_id][type]], undefined when either level is missing. *)
Definition read2 (map : gmap Z (gmap string Z)) (post_id : Z) (type : string)
    : option Z :=
  map !! post_id ≫= (.!! type).

(** ** Elapsed time, and the decayed score as specified *)

(** Time elapsed between the post's timestamp and the evaluation instant,
    in milliseconds, in hours and in days. *)
Definition age (now : Z) (p : Posts.row) : Z :=
  now - ms_of_timestamp (Posts.timestamp p).




(** ** Keys, ties and membership of an answer *)



(** A post is in an answer when one of the answer's items carries it. *)
Definition in_feed (p : Posts.row) (answer : list feed_item) : Prop :=
  ∃ item, item ∈ answer ∧ post (row item) = p.

(** ** Example stores *)

Definition plain_post (id likes reposts timestamp : Z) : Posts.row :=
  {| Posts.id := id; Posts.text := [104%N; 105%N]; Posts.mood := "none";
     Posts.likes := likes; Posts.reposts := reposts; Posts.image := None;
     Posts.timestamp := timestamp |}.

Definition reaction_on (id post_id : Z) (type : string) : Reactions.row :=
  {| Reactions.id := id; Reactions.post_id := post_id; Reactions.type := type;
     Reactions.timestamp := 100 |}.


Definition empty_store : database :=
  {| posts := []; reactions := []; replies := [];
     posts_seq := 0; reactions_seq := 0; replies_seq := 0 |}.


(** Two posts stamped in the same second, nothing else. *)
Definition same_second : database :=
  {| posts := [plain_post 1 0 0 100; plain_post 2 0 0 100];
     reactions := []; replies := [];
     posts_seq := 2; reactions_seq := 0; replies_seq := 0 |}.

(** Post 1 has drawn 3 [angry], 2 [sad] and a [fire]; post 2 has drawn
    3 [angry], 2 [sad] and 1 [love]. *)
Definition heated : database :=
  {| posts := [plain_post 1 0 0 100; plain_post 2 0 0 100];
     reactions :=
       [reaction_on 1 1 "angry"; reaction_on 2 1 "angry"; reaction_on 3 1 "angry";
        reaction_on 4 1 "sad"; reaction_on 5 1 "sad"; reaction_on 6 1 "fire";
        reaction_on 7 2 "angry"; reaction_on 8 2 "angry"; reaction_on 9 2 "angry";
        reaction_on 10 2 "sad"; reaction_on 11 2 "sad"; reaction_on 12 2 "love"];
     replies := [];
     posts_seq := 2; reactions_seq := 12; replies_seq := 0 |}.

(** A post with 10 likes and a post with 5 reposts, nothing else. *)
Definition ten_likes_five_reposts : database :=
  {| posts := [plain_post 1 10 0 100; plain_post 2 0 5 200];
     reactions := []; replies := [];
     posts_seq := 2; reactions_seq := 0; replies_seq := 0 |}.

(** Post 1 has drawn 3 [love] and 2 [angry]; post 2 nothing. *)
Definition loved_and_angry : database :=
  {| posts := [plain_post 1 0 0 100; plain_post 2 0 0 200];
     reactions :=
       [reaction_on 1 1 "love"; reaction_on 2 1 "angry"; reaction_on 3 1 "love";
        reaction_on 4 1 "angry"; reaction_on 5 1 "love"];
     replies := [];
     posts_seq := 2; reactions_seq := 5; replies_seq := 0 |}.

(** Post 1 exists; a reaction and a reply name post 7, which does not. *)
Definition orphans : database :=
  {| posts := [plain_post 1 0 0 100];
     reactions := [reaction_on 1 7 "love"; reaction_on 2 1 "fire"];
     replies := [{| Replies.id := 1; Replies.post_id := 7;
                    Replies.text := [104%N; 105%N]; Replies.image := None;
                    Replies.timestamp := 100 |}];
     posts_seq := 1; reactions_seq := 2; replies_seq := 1 |}.

(** ** The remaining routes *)

(** POST /api/posts/:id/repost: as [like_post], on the [reposts] counter. *)
Definition repost_row (id : Z) (p : Posts.row) : Posts.row :=
  if decide (Posts.id p = id) then
    {| Posts.id := Posts.id p; Posts.text := Posts.text p; Posts.mood := Posts.mood p;
       Posts.likes := Posts.likes p; Posts.reposts := Posts.reposts p + 1;
       Posts.image := Posts.image p; Posts.timestamp := Posts.timestamp p |}
  else p.

Definition repost_post (id : Z) (db : database) : response Z * database :=
  let db' := {| posts := repost_row id <$> posts db; reactions := reactions db;
                replies := replies db; posts_seq := posts_seq db;
                reactions_seq := reactions_seq db; replies_seq := replies_seq db |} in
  match filter (λ p, Posts.id p = id) (posts db') with
  | [] => (Status 404 "Not found", db')
  | row :: _ => (Json (Posts.reposts row), db')
  end.

(** [ORDER BY t1 ASC, ...]: the descending relation read the other way. *)
Definition follows {A} (terms : list (A → sqlkey)) : relation A :=
  λ a b, precedes terms b a.

Global Instance follows_dec {A} (terms : list (A → sqlkey)) :
  RelDecision (follows terms).
Proof. intros a b. unfold follows. apply _. Defined.

(** GET /api/posts/:id/replies: [SELECT * FROM replies WHERE post_id = ?
    ORDER BY timestamp ASC], a relation like the feed query, with its
    executable instance. *)
Definition by_reply_timestamp (r : Replies.row) : sqlkey :=
  INTEGER (Replies.timestamp r).

Definition get_replies (id : Z) (db : database) (rows : list Replies.row) : Prop :=
  rows ≡ₚ filter (λ r, Replies.post_id r = id) (replies db) ∧
  StronglySorted (follows [by_reply_timestamp]) rows.

Definition get_replies_scan (id : Z) (db : database) : list Replies.row :=
  merge_sort (follows [by_reply_timestamp])
    (filter (λ r, Replies.post_id r = id) (replies db)).

(** The requests that write, and the store each leaves. *)
Inductive request : Type :=
  | CreatePost (text : option jstext) (mood : option string) (file : option string)
  | Like (id : Z)
  | Repost (id : Z)
  | React (id : Z) (type : option string)
  | Reply (id : Z) (text : option jstext) (file : option string)
  | Delete (postId : option Z).

Definition handle (q : request) (now : Z) (db : database) : database :=
  match q with
  | CreatePost text mood file => (create_post text mood file now db).2
  | Like id => (like_post id db).2
  | Repost id => (repost_post id db).2
  | React id type => (react id type now db).2
  | Reply id text file => (reply id text file now db).2
  | Delete postId => (delete_post postId db).2
  end.

(** The store after a sequence of requests, each with its instant. *)
Definition run (qs : list (request * Z)) (db : database) : database :=
  foldl (λ db q, handle q.1 q.2 db) db qs.

(** ** Conditions on a store *)

(** Rowids are unique and none exceeds the table's sequence. *)
Definition ids_in_sequence (ids : list Z) (seq : Z) : Prop :=
  NoDup ids ∧ Forall (λ id, id ≤ seq) ids.

Definition rowids_ok (db : database) : Prop :=
  ids_in_sequence (Posts.id <$> posts db) (posts_seq db) ∧
  ids_in_sequence (Reactions.id <$> reactions db) (reactions_seq db) ∧
  ids_in_sequence (Replies.id <$> replies db) (replies_seq db).

(** What the handlers let into the tables. *)
Definition post_ok (p : Posts.row) : Prop :=
  Posts.mood p ∈ validMoods ∧ 0 ≤ Posts.likes p ∧ 0 ≤ Posts.reposts p ∧
  Posts.text p ≠ [] ∧ (length (Posts.text p) ≤ MAX_LENGTH)%nat ∧
  trim (Posts.text p) = Posts.text p.

Definition contents_ok (db : database) : Prop :=
  Forall post_ok (posts db) ∧
  Forall (λ r, Reactions.type r ∈ validTypes) (reactions db) ∧
  Forall (λ r, Replies.text r ≠ [] ∧ trim (Replies.text r) = Replies.text r)
         (replies db).

(** Every reaction and every reply names a post of the table. *)
Definition references_ok (db : database) : Prop :=
  Forall (λ r, Reactions.post_id r ∈ Posts.id <$> posts db) (reactions db) ∧
  Forall (λ r, Replies.post_id r ∈ Posts.id <$> posts db) (replies db).

(** The request names, if it is a reaction or a reply, a post of the
    table. *)
Definition names_existing_post (q : request) (db : database) : Prop :=
  match q with
  | React id _ | Reply id _ _ => id ∈ Posts.id <$> posts db
  | _ => True
  end.

(** ** The row of an accepted post, and more example stores *)

(** The row and the store of an accepted post. *)
Definition new_post (text : option jstext) (mood : option string)
    (file : option string) (now : Z) (db : database) : Posts.row :=
  {| Posts.id := next_rowid (posts_seq db) (Posts.id <$> posts db);
     Posts.text := trim (default [] text); Posts.mood := safeMood mood;
     Posts.likes := 0; Posts.reposts := 0; Posts.image := imagePath file;
     Posts.timestamp := CURRENT_TIMESTAMP now |}.

Definition busy_morning : list (request * Z) :=
  [(CreatePost (Some [104%N; 105%N]) (Some "happy") None, 1000);
   (CreatePost (Some [32%N; 111%N; 107%N]) (Some "banana") None, 2000);
   (React 1 (Some "love"), 3000); (React 7 (Some "fire"), 3500);
   (React 1 (Some "clap"), 3600);
   (Reply 2 (Some [121%N; 111%N; 32%N]) None, 4000);
   (Like 1, 5000); (Repost 2, 6000); (Like 9, 6500);
   (Delete (Some 2), 7000);
   (CreatePost (Some [97%N]) None None, 8000)].

Definition thread : database :=
  {| posts := [plain_post 1 0 0 100];
     reactions := [];
     replies :=
       [{| Replies.id := 1; Replies.post_id := 1; Replies.text := [98%N];
           Replies.image := None; Replies.timestamp := 300 |};
        {| Replies.id := 2; Replies.post_id := 1; Replies.text := [97%N];
           Replies.image := None; Replies.timestamp := 200 |};
        {| Replies.id := 3; Replies.post_id := 5; Replies.text := [99%N];
           Replies.image := None; Replies.timestamp := 100 |}];
     posts_seq := 1; reactions_seq := 0; replies_seq := 3 |}.

Definition three_ages : database :=
  {| posts := [plain_post 1 5 0 0; plain_post 2 3 0 10000; plain_post 3 1 0 25000];
     reactions := []; replies := [];
     posts_seq := 3; reactions_seq := 0; replies_seq := 0 |}.

(** * Properties *)

(** ** The ordering of keys *)

Section key_order.
Implicit Types a b c : sqlkey.

Lemma key_lt_irrefl a : key_lt a a = false.
Proof.
  destruct a as [x|]; simpl; [|done].
  apply bool_decide_eq_false. apply (irreflexivity (<)%Qc).
Qed.

Lemma key_lt_trans a b c :
  key_lt a b = true → key_lt b c = true → key_lt a c = true.
Proof.
  destruct a as [x|], b as [y|], c as [z|]; simpl; try done.
  rewrite !bool_decide_eq_true. apply Qclt_trans.
Qed.


Lemma key_trichotomy a b :
  key_lt a b = false → key_lt b a = false → a = b.
Proof.
  destruct a as [x|], b as [y|]; simpl; try done.
  rewrite !bool_decide_eq_false. intros Hxy Hyx. f_equal.
  apply Qcle_antisym; by apply Qcnot_lt_le.
Qed.
End key_order.

Section order_by.
Context {A : Type}.
Implicit Types (terms : list (A → sqlkey)) (a b c : A).

(** One ordering term decides, or it ties and the rest decide. *)
Lemma precedes_cons t terms a b :
  precedes (t :: terms) a b ↔
  key_lt (t b) (t a) = true ∨ (t a = t b ∧ precedes terms a b).
Proof.
  unfold precedes; simpl.
  destruct (key_lt (t b) (t a)) eqn:Hba; [naive_solver|].
  destruct (key_lt (t a) (t b)) eqn:Hab.
  - split; [done|]. intros [?|[Heq _]]; [done|].
    rewrite Heq, key_lt_irrefl in Hab. done.
  - pose proof (key_trichotomy _ _ Hab Hba) as Heq. split; [by right|]. intros [?|[_ ?]]; done.
Qed.

Global Instance precedes_total terms : Total (precedes terms).
Proof.
  intros a b. induction terms as [|t terms IH]; [by left|].
  rewrite !precedes_cons.
  destruct (key_lt (t b) (t a)) eqn:Hba; [by left; left|].
  destruct (key_lt (t a) (t b)) eqn:Hab; [by right; left|].
  pose proof (key_trichotomy _ _ Hab Hba) as Heq.
  destruct IH; [left|right]; right; done.
Qed.

Global Instance precedes_trans terms : Transitive (precedes terms).
Proof.
  intros a b c. induction terms as [|t terms IH]; [done|].
  rewrite !precedes_cons. intros [Hab|[Hab ?]] [Hbc|[Hbc ?]].
  - left. by apply (key_lt_trans _ (t b)).
  - left. by rewrite <-Hbc.
  - left. by rewrite Hab.
  - right. split; [congruence|auto].
Qed.

Global Instance precedes_refl terms : Reflexive (precedes terms).
Proof. intros a. by destruct (total (precedes terms) a a). Qed.


(** In a sorted arrangement a row never stands behind a row it strictly
    beats. *)
Lemma sorted_not_behind terms l1 l2 l3 a b :
  StronglySorted (precedes terms) (l1 ++ b :: l2 ++ a :: l3) →
  precedes terms b a.
Proof.
  intros Hs. apply StronglySorted_app_1_r in Hs.
  apply StronglySorted_cons in Hs as [Hall _].
  rewrite Forall_forall in Hall. apply Hall. set_solver.
Qed.

(** The merge sort of any list is a sorted arrangement of it. *)
Lemma merge_sort_ordered terms (l : list A) :
  merge_sort (precedes terms) l ≡ₚ l ∧
  StronglySorted (precedes terms) (merge_sort (precedes terms) l).
Proof.
  split; [apply merge_sort_Permutation|].
  apply StronglySorted_merge_sort; apply _.
Qed.
End order_by.

(** ** Grouped counts *)

Lemma filter_none {A} (P : A → Prop) `{∀ x, Decision (P x)} (l : list A) :
  (∀ x, x ∈ l → ¬ P x) → filter P l = [].
Proof.
  induction l as [|x l IH]; intros Hl; [done|].
  rewrite filter_cons_False by (apply Hl; left).
  apply IH. intros y Hy. apply Hl. by right.
Qed.

Section group_count.
Context `{Countable K}.
Implicit Types (keys : list K) (k : K).

Lemma group_count_cons k keys :
  group_count (k :: keys)
  = <[k := default 0 (group_count keys !! k) + 1]> (group_count keys).
Proof. done. Qed.

(** A key has a group exactly when some row carries it, and the group
    holds the number of those rows. *)
Lemma group_count_lookup keys k :
  group_count keys !! k =
  if decide (k ∈ keys)
  then Some (Z.of_nat (length (filter (λ x, x = k) keys)))
  else None.
Proof.
  induction keys as [|x keys IH].
  { rewrite decide_False by set_solver. done. }
  rewrite group_count_cons, filter_cons.
  destruct (decide (x = k)) as [->|Hne].
  - rewrite lookup_insert_eq, decide_True by set_solver.
    rewrite IH. f_equal. case_decide as Hin; simpl; [lia|].
    assert (filter (λ x, x = k) keys = []) as ->; [|done].
    apply filter_none. by intros y Hy ->.
  - rewrite lookup_insert_ne, IH by done.
    destruct (decide (k ∈ keys)) as [Hin|Hin].
    + rewrite decide_True; [done|by right].
    + rewrite decide_False; [done|]. intros Hin'. inv Hin'; done.
Qed.

Lemma group_count_coalesce keys k :
  COALESCE0 (group_count keys !! k)
  = Z.of_nat (length (filter (λ x, x = k) keys)).
Proof.
  rewrite group_count_lookup. case_decide as Hin; [done|]. simpl.
  assert (filter (λ x, x = k) keys = []) as ->; [|done].
  apply filter_none. by intros y Hy ->.
Qed.

Lemma group_count_positive keys k n :
  group_count keys !! k = Some n → 0 < n.
Proof.
  rewrite group_count_lookup. case_decide as Hin; [|done].
  intros [= <-]. apply list_elem_of_split in Hin as (l1 & l2 & ->).
  rewrite filter_app, filter_cons_True, length_app by done. simpl. lia.
Qed.
End group_count.

Lemma length_filter_fmap {A B} (f : A → B) (P : B → Prop)
  `{∀ y, Decision (P y)} (l : list A) :
  length (filter P (f <$> l)) = length (filter (λ x, P (f x)) l).
Proof.
  induction l as [|x l IH]; [done|].
  rewrite fmap_cons, !filter_cons. case_decide; simpl; by rewrite IH.
Qed.

(** ** The derived columns of [baseQuery] *)

Lemma select_row_post db p : post (select_row db p) = p.
Proof. done. Qed.

Lemma select_row_reaction_count db p :
  reaction_count (select_row db p) = count_reactions db (Posts.id p).
Proof.
  unfold select_row, count_reactions; simpl.
  by rewrite group_count_coalesce, length_filter_fmap.
Qed.

Lemma select_row_reply_count db p :
  reply_count (select_row db p) = count_replies db (Posts.id p).
Proof.
  unfold select_row, count_replies; simpl.
  by rewrite group_count_coalesce, length_filter_fmap.
Qed.

Lemma typed_group_coalesce db ty id :
  COALESCE0 (group_count (Reactions.post_id <$> reactions_of_type db ty) !! id)
  = count_reactions_of_type db id ty.
Proof.
  unfold reactions_of_type, count_reactions_of_type.
  by rewrite group_count_coalesce, length_filter_fmap, list_filter_filter.
Qed.

Lemma select_row_typed_counts db p :
  love_count (select_row db p) = count_reactions_of_type db (Posts.id p) "love" ∧
  happy_count (select_row db p) = count_reactions_of_type db (Posts.id p) "haha" ∧
  angry_count (select_row db p) = count_reactions_of_type db (Posts.id p) "angry" ∧
  sad_count (select_row db p) = count_reactions_of_type db (Posts.id p) "sad".
Proof. unfold select_row; simpl. by rewrite !typed_group_coalesce. Qed.

(** ** The [reactions] object built by [getReactionsForPosts] *)

Lemma read2_step map pid ty n pid' ty' :
  read2 (reactions_map_step map (pid, ty, n)) pid' ty' =
  if decide ((pid, ty) = (pid', ty')) then Some n else read2 map pid' ty'.
Proof.
  unfold read2, reactions_map_step.
  destruct (decide (pid = pid')) as [<-|Hp].
  - rewrite lookup_insert_eq; simpl.
    destruct (decide (ty = ty')) as [<-|Ht].
    + by rewrite lookup_insert_eq, decide_True.
    + rewrite lookup_insert_ne, decide_False by congruence.
      by destruct (map !! pid).
  - rewrite lookup_insert_ne, decide_False by congruence. done.
Qed.

(** Whatever the order in which the grouped rows arrive, the object built
    from them reads back each group's count. *)
Lemma read2_foldl (rows : list (Z * string * Z)) pid ty n :
  NoDup rows.*1 →
  read2 (foldl reactions_map_step ∅ rows) pid ty = Some n ↔ (pid, ty, n) ∈ rows.
Proof.
  induction rows as [|[[pid' ty'] n'] rows IH] using rev_ind; intros Hnd.
  { simpl. unfold read2. rewrite lookup_empty. simpl. set_solver. }
  rewrite fmap_app in Hnd. apply NoDup_app in Hnd as (Hnd & Hfresh & _).
  rewrite foldl_app. cbn [foldl].
  rewrite read2_step, elem_of_app, list_elem_of_singleton.
  case_decide as Heq.
  - injection Heq as -> ->. split.
    + intros [= ->]. by right.
    + intros [Hin|[= ->]]; [|done]. exfalso.
      apply (Hfresh (pid, ty)); [|simpl; left].
      apply list_elem_of_fmap. by exists (pid, ty, n).
  - rewrite IH by done. split; [by left|]. intros [?|[= -> -> ->]]; done.
Qed.

Lemma getReactionsForPosts_read db ids id ty :
  id ∈ ids →
  read2 (getReactionsForPosts db ids) id ty =
  if decide (count_reactions_of_type db id ty = 0) then None
  else Some (count_reactions_of_type db id ty).
Proof.
  intros Hid. unfold getReactionsForPosts.
  rewrite decide_False by (intros ->; inv Hid).
  unfold reaction_count_rows. set (m := group_count (K:=Z * string) _).
  assert (∀ n, read2 (foldl reactions_map_step ∅ (map_to_list m)) id ty
               = Some n ↔ m !! (id, ty) = Some n) as Hread.
  { intros n. rewrite read2_foldl by apply NoDup_fst_map_to_list.
    apply elem_of_map_to_list. }
  assert (COALESCE0 (m !! (id, ty)) = count_reactions_of_type db id ty) as Hcount.
  { unfold m, count_reactions_of_type.
    rewrite group_count_coalesce, length_filter_fmap, list_filter_filter.
    do 2 f_equal. apply list_filter_iff. intros r. split.
    - intros [[= ??] _]. done.
    - intros [-> ->]. done. }
  destruct (m !! (id, ty)) as [n|] eqn:Hm.
  - pose proof (group_count_positive _ _ _ Hm). simpl in Hcount.
    rewrite decide_False by lia. rewrite <-Hcount. by apply Hread.
  - simpl in Hcount. rewrite decide_True by lia.
    apply eq_None_not_Some. intros [n Hr]. apply Hread in Hr. congruence.
Qed.

(** ** Results of the feed query *)

Lemma baseQuery_scan_spec sortType db now :
  baseQuery sortType db now (baseQuery_scan sortType db now).
Proof. apply merge_sort_ordered. Qed.

Lemma get_posts_scan_spec sort db now :
  get_posts sort db now (get_posts_scan sort db now).
Proof. eexists. split; [apply baseQuery_scan_spec|done]. Qed.

(** The rows of a result are the rows of the posts that pass the time
    filter, whatever their arrangement. *)
Lemma baseQuery_elem sortType db now rows r :
  baseQuery sortType db now rows →
  r ∈ rows ↔ ∃ p, r = select_row db p ∧ p ∈ posts db ∧ timeFilter sortType now p = true.
Proof.
  intros [Hperm _]. rewrite Hperm. unfold selected_rows.
  rewrite list_elem_of_fmap. split.
  - intros (p & -> & Hp). apply list_elem_of_filter in Hp as [??]. by exists p.
  - intros (p & -> & ? & ?). exists p. split; [done|]. by apply list_elem_of_filter.
Qed.

Lemma respond_elem db rows item :
  item ∈ respond db rows ↔
  ∃ r, r ∈ rows ∧
    item = {| row := r;
              item_reactions :=
                default ∅ (getReactionsForPosts db ((λ r, Posts.id (post r)) <$> rows)
                             !! Posts.id (post r)) |}.
Proof.
  unfold respond. rewrite list_elem_of_fmap. split.
  - intros (r & -> & ?). by exists r.
  - intros (r & ? & ->). by exists r.
Qed.



(** ** The [hot] ordering term *)








(** ** What the ordering terms determine *)

Section keys.
Context {A : Type}.
Implicit Types (terms : list (A → sqlkey)) (a b : A).



End keys.

(** ** Ties *)






(** ** The [controversial] ordering *)

Lemma count_reactions_of_type_nonneg db id ty : 0 ≤ count_reactions_of_type db id ty.
Proof. apply Nat2Z.is_nonneg. Qed.


Lemma INTEGER_lt n m : key_lt (INTEGER n) (INTEGER m) = bool_decide (n < m).
Proof. unfold INTEGER; simpl. apply bool_decide_ext. symmetry. apply Z2Qc_inj_lt. Qed.

Lemma INTEGER_inj n m : INTEGER n = INTEGER m → n = m.
Proof. unfold INTEGER. intros Heq. apply Z2Qc_inj. congruence. Qed.



(** ** The time windows *)

Lemma in_feed_iff sort db now answer p :
  get_posts sort db now answer →
  in_feed p answer ↔ p ∈ posts db ∧ timeFilter (sortType_of sort) now p = true.
Proof.
  intros (rows & Hrows & ->). unfold in_feed. split.
  - intros (item & Hitem & <-).
    apply respond_elem in Hitem as (r & Hr & ->); simpl.
    apply (baseQuery_elem _ _ _ _ _ Hrows) in Hr as (p & -> & ? & ?). done.
  - intros [Hp Hfilter]. eexists. split.
    + apply respond_elem. exists (select_row db p). split; [|done].
      apply (baseQuery_elem _ _ _ _ _ Hrows). by exists p.
    + done.
Qed.

Lemma datetime_now_le now hours ts :
  datetime_now now hours ≤ ts ↔ now - ms_of_timestamp ts < 1000 - hours * MS_PER_HOUR.
Proof.
  unfold datetime_now, ms_of_timestamp.
  pose proof (Z.div_mod (now + hours * MS_PER_HOUR) 1000 ltac:(lia)).
  pose proof (Z.mod_pos_bound (now + hours * MS_PER_HOUR) 1000 ltac:(lia)).
  lia.
Qed.

Lemma timeFilter_hot now p :
  timeFilter "hot" now p = true ↔ age now p < 6 * MS_PER_HOUR + 1000.
Proof.
  unfold timeFilter, age; simpl. rewrite bool_decide_eq_true, datetime_now_le. lia.
Qed.

Lemma timeFilter_rising now p :
  timeFilter "rising" now p = true ↔ age now p < 2 * MS_PER_HOUR + 1000.
Proof.
  unfold timeFilter, age; simpl. rewrite bool_decide_eq_true, datetime_now_le. lia.
Qed.

Lemma timeFilter_unwindowed sortType now p :
  sortType ≠ "hot" → sortType ≠ "rising" → timeFilter sortType now p = true.
Proof. intros ??. unfold timeFilter. by rewrite !decide_False. Qed.

(** C4, as stated, fails at the edge of the window: a post stamped at
    second 100 and read 6 hours and half a second later is older than
    6 hours and still in the [hot] answer, because the bound of the window
    is cut to whole seconds before the comparison. *)
Lemma hot_keeps_post_older_than_six_hours :
  ¬ ∀ db now answer p,
      get_posts (Some "hot") db now answer → p ∈ posts db →
      6 * MS_PER_HOUR < age now p → ¬ in_feed p answer.
Proof.
  intros Hclaim.
  apply (Hclaim same_second 21700500
           (get_posts_scan (Some "hot") same_second 21700500)
           (plain_post 1 0 0 100)).
  - apply get_posts_scan_spec.
  - repeat constructor.
  - by vm_compute.
  - apply (in_feed_iff (Some "hot") same_second 21700500);
      [apply get_posts_scan_spec|]. split; [repeat constructor|by vm_compute].
Qed.

(** C4, amended: the windows select posts before anything is ordered or
    counted, by comparing timestamps in whole seconds.  A post is in an
    answer exactly when it is in the table and passes the strategy's filter;
    under [hot] it passes exactly when its age is below 6 hours and one
    second, under [rising] when its age is below 2 hours and one second, and
    under every other strategy always.  A post created 7 hours before the
    evaluation time is absent from the [hot] answer and present under [new]
    and [trending]. *)
Theorem windows_select_by_whole_seconds (sort : option string) (db : database)
    (now : Z) (answer : list feed_item) (p : Posts.row) :
  get_posts sort db now answer →
  (in_feed p answer ↔ p ∈ posts db ∧ timeFilter (sortType_of sort) now p = true) ∧
  (timeFilter "hot" now p = true ↔ age now p < 6 * MS_PER_HOUR + 1000) ∧
  (timeFilter "rising" now p = true ↔ age now p < 2 * MS_PER_HOUR + 1000) ∧
  (sortType_of sort ≠ "hot" → sortType_of sort ≠ "rising" →
     timeFilter (sortType_of sort) now p = true) ∧
  (age now p = 7 * MS_PER_HOUR →
     timeFilter "hot" now p = false ∧
     timeFilter "new" now p = true ∧ timeFilter "trending" now p = true).
Proof.
  intros Hanswer. split; [by apply in_feed_iff|].
  split; [apply timeFilter_hot|]. split; [apply timeFilter_rising|].
  split; [apply timeFilter_unwindowed|]. intros Hage. split; [|done].
  apply not_true_is_false. rewrite timeFilter_hot, Hage. by vm_compute.
Qed.

Lemma windows_select_by_whole_seconds_seven_hours :
  get_posts (Some "hot") same_second 25300000
    (get_posts_scan (Some "hot") same_second 25300000) ∧
  age 25300000 (plain_post 1 0 0 100) = 7 * MS_PER_HOUR ∧
  ¬ in_feed (plain_post 1 0 0 100) (get_posts_scan (Some "hot") same_second 25300000) ∧
  in_feed (plain_post 1 0 0 100) (get_posts_scan (Some "new") same_second 25300000).
Proof.
  split; [apply get_posts_scan_spec|]. split; [by vm_compute|]. split.
  - destruct (windows_select_by_whole_seconds (Some "hot") same_second 25300000
                (get_posts_scan (Some "hot") same_second 25300000)
                (plain_post 1 0 0 100) (get_posts_scan_spec _ _ _))
      as (Hin & _ & _ & _ & Hseven).
    rewrite Hin. intros [_ Hpass].
    destruct (Hseven eq_refl) as [Hout _].
    change (sortType_of (Some "hot")) with "hot" in Hpass. congruence.
  - apply (windows_select_by_whole_seconds (Some "new") same_second 25300000
             _ _ (get_posts_scan_spec _ _ _)).
    split; [repeat constructor|done].
Defined.

(** ** Unknown strategy names *)

Lemma order_default sortType now :
  sortType ∉ ["rising"; "controversial"; "top"; "best"; "hot"] →
  order sortType now = [by_timestamp].
Proof.
  rewrite !not_elem_of_cons. intros (? & ? & ? & ? & ? & _).
  unfold order. case_decide; [done|]. by rewrite !decide_False.
Qed.




Lemma not_elem_of_by_decide (s : string) (names : list string) :
  bool_decide (s ∈ names) = false → s ∉ names.
Proof. apply bool_decide_eq_false. Qed.


(** ** The [best] ordering *)





(** ** The metrics attached to the answer *)

Lemma length_filter_weaken {A} (P Q : A → Prop)
  `{∀ x, Decision (P x)} `{∀ x, Decision (Q x)} (l : list A) :
  (∀ x, P x → Q x) → (length (filter P l) ≤ length (filter Q l))%nat.
Proof.
  intros HPQ. induction l as [|x l IH]; [done|].
  rewrite !filter_cons. destruct (decide (P x)) as [HP|HP].
  - rewrite decide_True by auto. simpl. lia.
  - destruct (decide (Q x)); simpl; lia.
Qed.

Lemma count_reactions_of_type_le db id ty :
  count_reactions_of_type db id ty ≤ count_reactions db id.
Proof.
  unfold count_reactions_of_type, count_reactions.
  apply inj_le, length_filter_weaken. by intros r [??].
Qed.

Lemma default_empty_lookup (map : gmap Z (gmap string Z)) id ty :
  default ∅ (map !! id) !! ty = read2 map id ty.
Proof. unfold read2. by destruct (map !! id). Qed.



(** ** Writes that name a post *)

(** C8, on the code: a reaction and a reply sent for post 999 to a store
    that holds no post are both answered as successes and both stored,
    naming a post that does not exist, where liking the same post is
    answered 404; and in general the two routes store the row for any post
    identifier without looking at the posts table. *)
Theorem react_and_reply_store_dangling_references :
  react 999 (Some "love") 5000 empty_store
    = (Json (<["love" := 1]> ∅),
       {| posts := []; reactions := [{| Reactions.id := 1; Reactions.post_id := 999;
                                        Reactions.type := "love";
                                        Reactions.timestamp := 5 |}];
          replies := []; posts_seq := 0; reactions_seq := 1; replies_seq := 0 |}) ∧
  (let r := {| Replies.id := 1; Replies.post_id := 999; Replies.text := [104%N; 105%N];
               Replies.image := None; Replies.timestamp := 5 |} in
   reply 999 (Some [104%N; 105%N]) None 5000 empty_store
     = (Json r,
        {| posts := []; reactions := []; replies := [r];
           posts_seq := 0; reactions_seq := 0; replies_seq := 1 |})) ∧
  like_post 999 empty_store = (Status 404 "Not found", empty_store) ∧
  (∀ id ty now db, ty ∈ validTypes →
     ∃ body r, react id (Some ty) now db
                 = (Json body,
                    {| posts := posts db; reactions := reactions db ++ [r];
                       replies := replies db; posts_seq := posts_seq db;
                       reactions_seq := Reactions.id r;
                       replies_seq := replies_seq db |}) ∧
               Reactions.post_id r = id) ∧
  (∀ id text file now db, is_blank text = false →
     ∃ r, reply id text file now db
            = (Json r,
               {| posts := posts db; reactions := reactions db;
                  replies := replies db ++ [r]; posts_seq := posts_seq db;
                  reactions_seq := reactions_seq db;
                  replies_seq := Replies.id r |}) ∧
          Replies.post_id r = id).
Proof.
  split; [by vm_compute|]. split; [by vm_compute|]. split; [by vm_compute|]. split.
  - intros id ty now db Hty. unfold react.
    rewrite bool_decide_eq_true_2 by done.
    eexists _, {| Reactions.id := next_rowid (reactions_seq db)
                                      (Reactions.id <$> reactions db);
                  Reactions.post_id := id; Reactions.type := ty;
                  Reactions.timestamp := CURRENT_TIMESTAMP now |}.
    split; [reflexivity|done].
  - intros id text file now db Htext. unfold reply. rewrite Htext.
    eexists {| Replies.id := next_rowid (replies_seq db)
                               (Replies.id <$> replies db);
               Replies.post_id := id; Replies.text := trim (default [] text);
               Replies.image := imagePath file;
               Replies.timestamp := CURRENT_TIMESTAMP now |}.
    split; [reflexivity|done].
Qed.

(** ** Deleting a post *)

Lemma filter_all {A} (P : A → Prop) `{∀ x, Decision (P x)} (l : list A) :
  (∀ x, x ∈ l → P x) → filter P l = l.
Proof.
  induction l as [|x l IH]; intros Hl; [done|].
  rewrite filter_cons_True by (apply Hl; left).
  f_equal. apply IH. intros y Hy. apply Hl. by right.
Qed.

Lemma filter_drops {A} (P : A → Prop) `{∀ x, Decision (P x)} (l : list A) x :
  x ∈ l → ¬ P x → filter P l ≠ l.
Proof.
  intros Hin HP Heq. rewrite <-Heq in Hin.
  apply list_elem_of_filter in Hin as [? _]. done.
Qed.

(** C9: deleting a post identifier that no post carries answers 404, and
    the store it leaves is the store without the replies and without the
    reactions that named the identifier; when there was such a row, the
    store has changed although the answer is an error. *)
Theorem delete_of_missing_post_deletes_its_rows (id : Z) (db : database) :
  (∀ p, p ∈ posts db → Posts.id p ≠ id) →
  delete_post (Some id) db
    = (Status 404 "Post not found",
       {| posts := posts db;
          reactions := filter (λ r, Reactions.post_id r ≠ id) (reactions db);
          replies := filter (λ r, Replies.post_id r ≠ id) (replies db);
          posts_seq := posts_seq db; reactions_seq := reactions_seq db;
          replies_seq := replies_seq db |}) ∧
  ((∃ r, r ∈ reactions db ∧ Reactions.post_id r = id) ∨
   (∃ r, r ∈ replies db ∧ Replies.post_id r = id) →
   (delete_post (Some id) db).2 ≠ db).
Proof.
  intros Hmissing.
  assert (filter (λ p, Posts.id p ≠ id) (posts db) = posts db) as Hposts
    by (by apply filter_all).
  assert (delete_post (Some id) db
    = (Status 404 "Post not found",
       {| posts := posts db;
          reactions := filter (λ r, Reactions.post_id r ≠ id) (reactions db);
          replies := filter (λ r, Replies.post_id r ≠ id) (replies db);
          posts_seq := posts_seq db; reactions_seq := reactions_seq db;
          replies_seq := replies_seq db |})) as Hdelete.
  { unfold delete_post, delete_posts_row, delete_reactions, delete_replies; simpl.
    rewrite Hposts, Nat.sub_diag. done. }
  split; [done|]. rewrite Hdelete; simpl.
  intros [(r & Hr & Hid)|(r & Hr & Hid)] Heq.
  - apply (filter_drops (λ r, Reactions.post_id r ≠ id) (reactions db) r);
      [done|by intros ?|].
    by rewrite <-Heq at 2.
  - apply (filter_drops (λ r, Replies.post_id r ≠ id) (replies db) r);
      [done|by intros ?|].
    by rewrite <-Heq at 2.
Qed.

Lemma delete_of_missing_post_deletes_its_rows_orphans :
  (∀ p, p ∈ posts orphans → Posts.id p ≠ 7) ∧
  delete_post (Some 7) orphans
    = (Status 404 "Post not found",
       {| posts := [plain_post 1 0 0 100];
          reactions := [reaction_on 2 1 "fire"]; replies := [];
          posts_seq := 1; reactions_seq := 2; replies_seq := 1 |}) ∧
  (delete_post (Some 7) orphans).2 ≠ orphans.
Proof.
  assert (∀ p, p ∈ posts orphans → Posts.id p ≠ 7) as Hmissing.
  { intros p Hp. apply list_elem_of_singleton in Hp as ->. done. }
  split; [done|]. split; [by vm_compute|].
  apply (delete_of_missing_post_deletes_its_rows 7 orphans Hmissing).
  left. exists (reaction_on 1 7 "love"). split; [repeat constructor|done].
Defined.

(** ** The mood of a new post *)

(** C10: a mood outside the fixed list, or no mood at all, never changes
    the outcome of the request: the text alone decides between 400 and
    success, and on success the post is stored, and answered, with mood
    [none]. *)
Theorem invalid_mood_is_stored_as_none (text : option jstext) (mood : option string)
    (file : option string) (now : Z) (db : database) :
  (∀ m, mood = Some m → m ∉ validMoods) →
  safeMood mood = "none" ∧
  create_post text mood file now db = create_post text (Some "none") file now db ∧
  (is_blank text = false → (length (trim (default [] text)) ≤ MAX_LENGTH)%nat →
   ∃ p db', create_post text mood file now db = (Json p, db') ∧
            Posts.mood p = "none" ∧ posts db' = posts db ++ [p]).
Proof.
  intros Hmood.
  assert (safeMood mood = "none") as Hsafe.
  { unfold safeMood. destruct mood as [m|]; [|done].
    rewrite bool_decide_eq_false_2; [done|]. by apply Hmood. }
  split; [done|]. split.
  - unfold create_post. rewrite Hsafe. done.
  - intros Htext Hlen. unfold create_post.
    rewrite Htext, bool_decide_eq_false_2 by lia.
    eexists _, _. split; [reflexivity|]. by rewrite Hsafe.
Qed.

Lemma invalid_mood_is_stored_as_none_banana :
  (∀ m, Some "banana" = Some m → m ∉ validMoods) ∧
  (∀ m, @None string = Some m → m ∉ validMoods) ∧
  (∃ p db', create_post (Some [104%N; 105%N]) (Some "banana") None 5000 empty_store
              = (Json p, db') ∧
            Posts.mood p = "none" ∧ posts db' = posts empty_store ++ [p]) ∧
  create_post (Some [104%N; 105%N]) None None 5000 empty_store
    = create_post (Some [104%N; 105%N]) (Some "none") None 5000 empty_store.
Proof.
  assert (∀ m, Some "banana" = Some m → m ∉ validMoods) as Hbanana.
  { intros m [= <-]. by apply not_elem_of_by_decide; vm_compute. }
  assert (∀ m, @None string = Some m → m ∉ validMoods) as Habsent by done.
  split; [done|]. split; [done|]. split.
  - apply (invalid_mood_is_stored_as_none (Some [104%N; 105%N]) (Some "banana")
             None 5000 empty_store Hbanana); [by vm_compute|].
    vm_compute. lia.
  - apply (invalid_mood_is_stored_as_none (Some [104%N; 105%N]) None
             None 5000 empty_store Habsent).
Defined.

(** * Further properties of the routes *)

(** ** Trimming *)

Lemma trim_start_split (s : jstext) :
  ∃ k, s = k ++ trim_start s ∧ Forall (λ c, is_js_space c = true) k.
Proof.
  induction s as [|c s (k & Hs & Hk)]; [by exists []|]. simpl.
  destruct (is_js_space c) eqn:Hc.
  - exists (c :: k). split; [by rewrite <-app_comm_cons, <-Hs|by constructor].
  - by exists [].
Qed.

Lemma trim_start_head (s : jstext) c rest :
  trim_start s = c :: rest → is_js_space c = false.
Proof.
  induction s as [|d s IH]; [done|]. simpl.
  destruct (is_js_space d) eqn:Hd; [done|]. by intros [= <- _].
Qed.

Lemma trim_start_fixed c (s : jstext) :
  is_js_space c = false → trim_start (c :: s) = c :: s.
Proof. intros Hc. simpl. by rewrite Hc. Qed.

Lemma trim_start_spaces (s : jstext) :
  Forall (λ c, is_js_space c = true) s ↔ trim_start s = [].
Proof.
  split.
  - induction 1 as [|c s Hc _ IH]; [done|]. simpl. by rewrite Hc.
  - intros Hnil. destruct (trim_start_split s) as (k & Hs & Hk).
    by rewrite Hs, Hnil, app_nil_r.
Qed.

(** Trimming leaves nothing exactly when the text is white space only. *)
Lemma trim_nil (s : jstext) :
  trim s = [] ↔ Forall (λ c, is_js_space c = true) s.
Proof.
  unfold trim. split.
  - intros Hnil. apply (f_equal reverse) in Hnil.
    rewrite reverse_involutive in Hnil. change (reverse []) with (@nil N) in Hnil.
    apply trim_start_spaces in Hnil.
    destruct (trim_start s) as [|c rest] eqn:Hs; [by apply trim_start_spaces|].
    apply trim_start_head in Hs.
    rewrite reverse_cons, Forall_app, Forall_singleton in Hnil.
    destruct Hnil as [_ Hc]. congruence.
  - intros Hs. apply trim_start_spaces in Hs. by rewrite Hs.
Qed.

(** A trimmed text is not changed by trimming it again. *)
Lemma trim_idemp (s : jstext) : trim (trim s) = trim s.
Proof.
  unfold trim at 2 3.
  destruct (trim_start (reverse (trim_start s))) as [|c X] eqn:HX; [done|].
  pose proof (trim_start_head _ _ _ HX) as Hc.
  destruct (trim_start_split (reverse (trim_start s))) as (k & Hrev & _).
  rewrite HX in Hrev. apply (f_equal reverse) in Hrev.
  rewrite reverse_involutive, reverse_app in Hrev.
  destruct (reverse (c :: X)) as [|d T] eqn:HT.
  { apply (f_equal length) in HT. rewrite length_reverse in HT. done. }
  rewrite <-app_comm_cons in Hrev. apply trim_start_head in Hrev as Hd.
  unfold trim. rewrite (trim_start_fixed d T Hd), <-HT, reverse_involutive.
  by rewrite (trim_start_fixed c X Hc).
Qed.

Lemma is_blank_spec (text : option jstext) :
  is_blank text = true ↔
  match text with
  | None => True
  | Some t => Forall (λ c, is_js_space c = true) t
  end.
Proof.
  destruct text as [t|]; simpl; [|done].
  rewrite orb_true_iff, !bool_decide_eq_true, trim_nil. split; [|by right].
  intros [->|?]; [constructor|done].
Qed.

Lemma safeMood_valid mood : safeMood mood ∈ validMoods.
Proof.
  unfold safeMood. destruct mood as [m|]; [|repeat constructor].
  case_bool_decide; [done|repeat constructor].
Qed.

(** ** Creating a post *)

(** X1: a text that is absent, empty or white space only is refused with
    400 "Post cannot be empty"; any other text longer than 280 code units
    once trimmed is refused with 400 "Max 280 characters"; both leave the
    store as it was, and every other request is answered with the new
    row. *)
Theorem create_post_refuses_blank_and_long (text : option jstext)
    (mood : option string) (file : option string) (now : Z) (db : database) :
  let white_only :=
    match text with
    | None => True
    | Some t => Forall (λ c, is_js_space c = true) t
    end in
  (white_only →
     create_post text mood file now db = (Status 400 "Post cannot be empty", db)) ∧
  (¬ white_only → (MAX_LENGTH < length (trim (default [] text)))%nat →
     create_post text mood file now db = (Status 400 "Max 280 characters", db)) ∧
  (¬ white_only → (length (trim (default [] text)) ≤ MAX_LENGTH)%nat →
     ∃ p db', create_post text mood file now db = (Json p, db')).
Proof.
  intros white_only. unfold create_post. split; [|split].
  - intros Hw. apply is_blank_spec in Hw. by rewrite Hw.
  - intros Hw Hlong.
    assert (is_blank text = false) as Hb.
    { apply not_true_is_false. intros Hb. by apply Hw, is_blank_spec. }
    by rewrite Hb, bool_decide_eq_true_2.
  - intros Hw Hshort. destruct (is_blank text) eqn:Hb.
    + destruct Hw. by apply is_blank_spec.
    + rewrite bool_decide_eq_false_2 by lia. by eexists _, _.
Qed.

Lemma create_post_refuses_blank_and_long_spaces :
  create_post (Some [32%N; 9%N; 160%N]) (Some "love") None 5000 same_second
    = (Status 400 "Post cannot be empty", same_second) ∧
  create_post (Some (replicate 281 104%N)) None None 5000 same_second
    = (Status 400 "Max 280 characters", same_second).
Proof.
  destruct (create_post_refuses_blank_and_long (Some [32%N; 9%N; 160%N])
              (Some "love") None 5000 same_second) as (Hblank & _ & _).
  destruct (create_post_refuses_blank_and_long (Some (replicate 281 104%N))
              None None 5000 same_second) as (_ & Hlong & _).
  split.
  - apply Hblank. repeat constructor.
  - apply Hlong.
    + intros Hw. apply Forall_cons_1 in Hw as [Hw _]. by vm_compute in Hw.
    + vm_compute. lia.
Defined.

Lemma next_rowid_gt_seq seq ids : seq < next_rowid seq ids.
Proof.
  unfold next_rowid. induction ids as [|id ids IH]; simpl; lia.
Qed.

Lemma next_rowid_gt_ids seq ids id : id ∈ ids → id < next_rowid seq ids.
Proof.
  unfold next_rowid. induction 1 as [id ids|id id' ids _ IH]; simpl; lia.
Qed.

Lemma CURRENT_TIMESTAMP_bounds now :
  CURRENT_TIMESTAMP now * 1000 ≤ now < CURRENT_TIMESTAMP now * 1000 + 1000.
Proof.
  unfold CURRENT_TIMESTAMP, datetime_now.
  replace (now + 0 * MS_PER_HOUR) with now by lia.
  pose proof (Z.div_mod now 1000 ltac:(lia)).
  pose proof (Z.mod_pos_bound now 1000 ltac:(lia)). lia.
Qed.

Lemma create_post_accepted text mood file now db p db' :
  create_post text mood file now db = (Json p, db') →
  is_blank text = false ∧ (length (trim (default [] text)) ≤ MAX_LENGTH)%nat ∧
  p = new_post text mood file now db ∧
  db' = {| posts := posts db ++ [p]; reactions := reactions db;
           replies := replies db; posts_seq := Posts.id p;
           reactions_seq := reactions_seq db; replies_seq := replies_seq db |}.
Proof.
  unfold create_post. destruct (is_blank text) eqn:Hblank; [done|].
  case_bool_decide as Hlen; [done|]. intros [= <- <-].
  split; [done|]. split; [lia|done].
Qed.

Lemma create_post_refused text mood file now db code msg db' :
  create_post text mood file now db = (Status code msg, db') → db' = db.
Proof.
  unfold create_post. destruct (is_blank text); [by intros [= _ _ <-]|].
  case_bool_decide; [by intros [= _ _ <-]|done].
Qed.

Lemma trim_default_nonempty (text : option jstext) :
  is_blank text = false → trim (default [] text) ≠ [].
Proof.
  intros Hblank Hnil. destruct text as [t|]; [|done]. simpl in *.
  by rewrite Hnil, orb_true_r in Hblank.
Qed.

Lemma new_post_ok text mood file now db :
  is_blank text = false → (length (trim (default [] text)) ≤ MAX_LENGTH)%nat →
  post_ok (new_post text mood file now db).
Proof.
  intros Hblank Hlen. unfold post_ok, new_post; simpl.
  split; [apply safeMood_valid|]. repeat (split; [done|]).
  split; [by apply trim_default_nonempty|]. split; [done|apply trim_idemp].
Qed.

(** X2: a post that is accepted is appended to the posts table and nothing
    else changes; its identifier is larger than every identifier in the
    table and than the sequence, which moves to it; it starts with no likes
    and no reposts, a mood of the fixed list, the second of the request as
    its timestamp, and the trimmed text, which is not empty, holds at most
    280 code units and has no white space left to trim. *)
Theorem create_post_appends_fresh_row (text : option jstext) (mood : option string)
    (file : option string) (now : Z) (db db' : database) (p : Posts.row) :
  create_post text mood file now db = (Json p, db') →
  posts db' = posts db ++ [p] ∧
  reactions db' = reactions db ∧ replies db' = replies db ∧
  reactions_seq db' = reactions_seq db ∧ replies_seq db' = replies_seq db ∧
  posts_seq db' = Posts.id p ∧ posts_seq db < Posts.id p ∧
  (∀ q, q ∈ posts db → Posts.id q < Posts.id p) ∧
  Posts.likes p = 0 ∧ Posts.reposts p = 0 ∧
  Posts.timestamp p * 1000 ≤ now < Posts.timestamp p * 1000 + 1000 ∧
  Posts.text p = trim (default [] text) ∧ post_ok p.
Proof.
  intros Hcreate.
  apply create_post_accepted in Hcreate as (Hblank & Hlen & Hp & ->); simpl.
  repeat (split; [done|]).
  assert (Posts.id p = next_rowid (posts_seq db) (Posts.id <$> posts db)) as Hid
    by (by rewrite Hp).
  split; [rewrite Hid; apply next_rowid_gt_seq|]. split.
  { intros q Hq. rewrite Hid. apply next_rowid_gt_ids, list_elem_of_fmap. by exists q. }
  rewrite Hp at 1 2 3 4 5. simpl. repeat (split; [done|]).
  split; [apply CURRENT_TIMESTAMP_bounds|]. split; [done|].
  rewrite Hp. by apply new_post_ok.
Qed.

Lemma create_post_appends_fresh_row_hi :
  let p := {| Posts.id := 3; Posts.text := [104%N; 105%N]; Posts.mood := "happy";
              Posts.likes := 0; Posts.reposts := 0; Posts.image := Some "/uploads/a.png";
              Posts.timestamp := 5 |} in
  let db' := {| posts := posts same_second ++ [p]; reactions := []; replies := [];
                posts_seq := 3; reactions_seq := 0; replies_seq := 0 |} in
  create_post (Some [32%N; 104%N; 105%N; 10%N]) (Some "happy") (Some "a.png")
    5999 same_second = (Json p, db') ∧
  post_ok p ∧ (∀ q, q ∈ posts same_second → Posts.id q < Posts.id p).
Proof.
  intros p db'.
  assert (create_post (Some [32%N; 104%N; 105%N; 10%N]) (Some "happy") (Some "a.png")
            5999 same_second = (Json p, db')) as Hcreate by (by vm_compute).
  split; [done|].
  destruct (create_post_appends_fresh_row _ _ _ _ _ _ _ Hcreate)
    as (_ & _ & _ & _ & _ & _ & _ & Hfresh & _ & _ & _ & _ & Hok).
  done.
Defined.

(** ** Conditions every write keeps *)

Lemma ids_in_sequence_snoc ids seq :
  ids_in_sequence ids seq →
  ids_in_sequence (ids ++ [next_rowid seq ids]) (next_rowid seq ids).
Proof.
  intros [Hnd Hle]. split.
  - apply NoDup_app. split; [done|]. split; [|apply NoDup_singleton].
    intros id Hid Hnew. apply list_elem_of_singleton in Hnew.
    pose proof (next_rowid_gt_ids seq ids id Hid). lia.
  - apply Forall_app. split; [|by apply Forall_singleton].
    pose proof (next_rowid_gt_seq seq ids).
    eapply Forall_impl; [done|]. simpl. intros. lia.
Qed.

Lemma ids_in_sequence_filter {A} (f : A → Z) (P : A → Prop)
  `{∀ x, Decision (P x)} (l : list A) seq :
  ids_in_sequence (f <$> l) seq → ids_in_sequence (f <$> filter P l) seq.
Proof.
  unfold ids_in_sequence. induction l as [|x l IH]; [done|].
  rewrite fmap_cons, NoDup_cons, Forall_cons, filter_cons.
  intros [[Hx Hnd] [Hle Hall]]. destruct (IH (conj Hnd Hall)) as [IHnd IHall].
  case_decide; [|done]. rewrite fmap_cons, NoDup_cons, Forall_cons.
  split; [|done]. split; [|done]. intros Hin. apply Hx.
  apply list_elem_of_fmap in Hin as (y & -> & Hy).
  apply list_elem_of_filter in Hy as [_ Hy].
  apply list_elem_of_fmap. by exists y.
Qed.

Lemma like_row_ids id (l : list Posts.row) :
  Posts.id <$> (like_row id <$> l) = Posts.id <$> l.
Proof.
  rewrite <-list_fmap_compose. apply list_fmap_ext. intros _ p _.
  unfold like_row; simpl. by case_decide.
Qed.

Lemma repost_row_ids id (l : list Posts.row) :
  Posts.id <$> (repost_row id <$> l) = Posts.id <$> l.
Proof.
  rewrite <-list_fmap_compose. apply list_fmap_ext. intros _ p _.
  unfold repost_row; simpl. by case_decide.
Qed.

Lemma like_post_store id db :
  (like_post id db).2
  = {| posts := like_row id <$> posts db; reactions := reactions db;
       replies := replies db; posts_seq := posts_seq db;
       reactions_seq := reactions_seq db; replies_seq := replies_seq db |}.
Proof. unfold like_post; simpl. by destruct (filter _ _). Qed.

Lemma repost_post_store id db :
  (repost_post id db).2
  = {| posts := repost_row id <$> posts db; reactions := reactions db;
       replies := replies db; posts_seq := posts_seq db;
       reactions_seq := reactions_seq db; replies_seq := replies_seq db |}.
Proof. unfold repost_post; simpl. by destruct (filter _ _). Qed.

Lemma delete_post_store postId db :
  (delete_post postId db).2
  = match postId with
    | None => db
    | Some id =>
        {| posts := filter (λ p, Posts.id p ≠ id) (posts db);
           reactions := filter (λ r, Reactions.post_id r ≠ id) (reactions db);
           replies := filter (λ r, Replies.post_id r ≠ id) (replies db);
           posts_seq := posts_seq db; reactions_seq := reactions_seq db;
           replies_seq := replies_seq db |}
    end.
Proof. unfold delete_post. destruct postId as [id|]; [|done]. simpl. by case_decide. Qed.

Lemma handle_rowids_ok q now db : rowids_ok db → rowids_ok (handle q now db).
Proof.
  intros (Hp & Hr & Hy). destruct q as [text mood file|id|id|id type|id text file|postId];
    simpl.
  - unfold create_post. destruct (is_blank text); [done|].
    case_bool_decide; [done|]. split; [|done]. simpl.
    rewrite fmap_app. by apply ids_in_sequence_snoc.
  - rewrite like_post_store. split; [|done]. simpl. by rewrite like_row_ids.
  - rewrite repost_post_store. split; [|done]. simpl. by rewrite repost_row_ids.
  - unfold react. destruct type as [ty|]; [|done]. case_bool_decide; [|done].
    split; [done|]. split; [|done]. simpl.
    rewrite fmap_app. by apply ids_in_sequence_snoc.
  - unfold reply. destruct (is_blank text); [done|].
    split; [done|]. split; [done|]. simpl.
    rewrite fmap_app. by apply ids_in_sequence_snoc.
  - rewrite delete_post_store. destruct postId as [id|]; [|done].
    split; [|split]; simpl; by apply ids_in_sequence_filter.
Qed.

Lemma run_invariant (I : database → Prop) :
  (∀ q now db, I db → I (handle q now db)) →
  ∀ qs db, I db → I (run qs db).
Proof.
  intros Hstep qs. unfold run.
  induction qs as [|[q now] qs IH]; intros db Hdb; [done|].
  simpl. by apply IH, Hstep.
Qed.

(** X3: whatever requests are served, in whatever order, the rowids of each
    table stay pairwise different and none exceeds the table's sequence:
    a post, a reaction or a reply is never given an identifier that a row
    of its table holds or has held since the sequence was last moved. *)
Theorem rowids_stay_unique (qs : list (request * Z)) (db : database) :
  rowids_ok db → rowids_ok (run qs db).
Proof. apply run_invariant. intros q now. apply handle_rowids_ok. Qed.

Lemma rowids_stay_unique_busy_morning :
  rowids_ok empty_store ∧ rowids_ok (run busy_morning empty_store) ∧
  Posts.id <$> posts (run busy_morning empty_store) = [1; 3].
Proof.
  assert (rowids_ok empty_store) as Hempty by (repeat constructor).
  split; [done|]. split; [|by vm_compute].
  apply (rowids_stay_unique busy_morning empty_store Hempty).
Defined.

Lemma like_row_ok id p : post_ok p → post_ok (like_row id p).
Proof.
  unfold like_row, post_ok. case_decide; [|done]. simpl.
  intros (? & ? & ? & ? & ? & ?). repeat split; try done. lia.
Qed.

Lemma repost_row_ok id p : post_ok p → post_ok (repost_row id p).
Proof.
  unfold repost_row, post_ok. case_decide; [|done]. simpl.
  intros (? & ? & ? & ? & ? & ?). repeat split; try done. lia.
Qed.

Lemma Forall_filter_keep {A} (Q P : A → Prop) `{∀ x, Decision (P x)} (l : list A) :
  Forall Q l → Forall Q (filter P l).
Proof.
  rewrite !Forall_forall. intros Hl x Hx.
  apply list_elem_of_filter in Hx as [_ Hx]. by apply Hl.
Qed.

Lemma handle_contents_ok q now db : contents_ok db → contents_ok (handle q now db).
Proof.
  intros (Hp & Hr & Hy).
  destruct q as [text mood file|id|id|id type|id text file|postId]; simpl.
  - destruct (create_post text mood file now db) as [[p|code msg] db'] eqn:Hcreate.
    + apply create_post_accepted in Hcreate as (Hblank & Hlen & -> & ->).
      split; [|done]. simpl. apply Forall_app. split; [done|].
      apply Forall_singleton. by apply new_post_ok.
    + apply create_post_refused in Hcreate as ->. done.
  - rewrite like_post_store. split; [|done]. simpl.
    apply Forall_fmap. eapply Forall_impl; [done|]. intros p. apply like_row_ok.
  - rewrite repost_post_store. split; [|done]. simpl.
    apply Forall_fmap. eapply Forall_impl; [done|]. intros p. apply repost_row_ok.
  - unfold react. destruct type as [ty|]; [|done]. case_bool_decide as Hty; [|done].
    split; [done|]. split; [|done]. simpl.
    apply Forall_app. split; [done|]. by apply Forall_singleton.
  - unfold reply. destruct (is_blank text) eqn:Hblank; [done|].
    split; [done|]. split; [done|]. simpl.
    apply Forall_app. split; [done|]. apply Forall_singleton. simpl.
    split; [by apply trim_default_nonempty|apply trim_idemp].
  - rewrite delete_post_store. destruct postId as [id|]; [|done].
    split; [|split]; simpl; by apply Forall_filter_keep.
Qed.

(** X4: whatever requests are served, every stored post keeps a mood of
    the fixed list, counters that are not negative and a trimmed text of 1
    to 280 code units; every stored reaction keeps one of the five types;
    every stored reply keeps a trimmed text that is not empty. *)
Theorem contents_stay_valid (qs : list (request * Z)) (db : database) :
  contents_ok db → contents_ok (run qs db).
Proof. apply run_invariant. intros q now. apply handle_contents_ok. Qed.

Lemma contents_stay_valid_busy_morning :
  contents_ok empty_store ∧ contents_ok (run busy_morning empty_store) ∧
  Posts.mood <$> posts (run busy_morning empty_store) = ["happy"; "none"] ∧
  Reactions.type <$> reactions (run busy_morning empty_store) = ["love"; "fire"].
Proof.
  assert (contents_ok empty_store) as Hempty by (repeat constructor).
  split; [done|]. split; [|by vm_compute].
  apply (contents_stay_valid busy_morning empty_store Hempty).
Defined.

(** ** References to posts *)

(** X5: a store in which every reaction and every reply names an existing
    post stays so under every request, deletion included, provided the
    request, when it is a reaction or a reply, names an existing post. *)
Theorem references_stay_live (q : request) (now : Z) (db : database) :
  references_ok db → names_existing_post q db → references_ok (handle q now db).
Proof.
  intros [Hr Hy] Hq.
  destruct q as [text mood file|id|id|id type|id text file|postId]; simpl in *.
  - destruct (create_post text mood file now db) as [[p|code msg] db'] eqn:Hcreate.
    + apply create_post_accepted in Hcreate as (_ & _ & _ & ->).
      split; simpl; (eapply Forall_impl; [done|]); simpl; intros r Hin;
        rewrite fmap_app; apply elem_of_app; by left.
    + by apply create_post_refused in Hcreate as ->.
  - rewrite like_post_store. split; simpl; by rewrite like_row_ids.
  - rewrite repost_post_store. split; simpl; by rewrite repost_row_ids.
  - unfold react. destruct type as [ty|]; [|done]. case_bool_decide; [|done].
    split; [|done]. simpl. apply Forall_app. split; [done|]. by apply Forall_singleton.
  - unfold reply. destruct (is_blank text); [done|].
    split; [done|]. simpl. apply Forall_app. split; [done|]. by apply Forall_singleton.
  - rewrite delete_post_store. destruct postId as [id|]; [|done].
    split; simpl; apply Forall_forall; intros r Hin;
      apply list_elem_of_filter in Hin as [Hne Hin].
    + rewrite Forall_forall in Hr. apply Hr in Hin.
      apply list_elem_of_fmap in Hin as (p & Hp & Hin).
      apply list_elem_of_fmap. exists p. split; [done|].
      apply list_elem_of_filter. split; [congruence|done].
    + rewrite Forall_forall in Hy. apply Hy in Hin.
      apply list_elem_of_fmap in Hin as (p & Hp & Hin).
      apply list_elem_of_fmap. exists p. split; [done|].
      apply list_elem_of_filter. split; [congruence|done].
Qed.

Lemma references_stay_live_delete :
  references_ok heated ∧ names_existing_post (Delete (Some 1)) heated ∧
  references_ok (handle (Delete (Some 1)) 9000 heated) ∧
  length (reactions (handle (Delete (Some 1)) 9000 heated)) = 6%nat.
Proof.
  assert (references_ok heated) as Hheated by (split; repeat constructor).
  split; [done|]. split; [done|]. split; [|by vm_compute].
  apply (references_stay_live (Delete (Some 1)) 9000 heated Hheated I).
Defined.

(** ** Likes and reposts *)

Lemma filter_fmap_pre {A B} (f : A → B) (P : B → Prop)
  `{∀ y, Decision (P y)} (l : list A) :
  filter P (f <$> l) = f <$> filter (λ x, P (f x)) l.
Proof.
  induction l as [|x l IH]; [done|].
  rewrite fmap_cons, !filter_cons. case_decide; [|done].
  by rewrite fmap_cons, IH.
Qed.

Lemma filter_unique {A} (f : A → Z) (l : list A) p :
  NoDup (f <$> l) → p ∈ l → filter (λ q, f q = f p) l = [p].
Proof.
  induction l as [|x l IH]; intros Hnd Hp; [by apply elem_of_nil in Hp|].
  rewrite fmap_cons, NoDup_cons in Hnd. destruct Hnd as [Hx Hnd].
  apply elem_of_cons in Hp as [->|Hp].
  - rewrite filter_cons_True by done. f_equal.
    apply filter_none. intros q Hq Heq. apply Hx.
    rewrite <-Heq. apply list_elem_of_fmap. by exists q.
  - rewrite filter_cons_False; [by apply IH|].
    intros Heq. apply Hx. rewrite Heq. apply list_elem_of_fmap. by exists p.
Qed.

Lemma like_row_other id (l : list Posts.row) :
  (∀ p, p ∈ l → Posts.id p ≠ id) → like_row id <$> l = l.
Proof.
  intros Hl. rewrite <-(list_fmap_id l) at 2. apply list_fmap_ext.
  intros i p Hp. unfold like_row. rewrite decide_False; [done|].
  apply Hl. by eapply list_elem_of_lookup_2.
Qed.

(** X6: in a table of distinct identifiers, liking a post answers its
    number of likes plus one and stores that number in its row; every other
    row, the reactions and the replies stay as they were.  Liking an
    identifier that no post carries answers 404 and changes nothing. *)
Theorem like_post_adds_one (id : Z) (db : database) :
  NoDup (Posts.id <$> posts db) →
  (∀ p, p ∈ posts db → Posts.id p = id →
     ∃ db', like_post id db = (Json (Posts.likes p + 1), db') ∧
       like_row id p ∈ posts db' ∧
       Posts.likes (like_row id p) = Posts.likes p + 1 ∧
       Posts.reposts (like_row id p) = Posts.reposts p ∧
       (∀ q, q ∈ posts db → Posts.id q ≠ id → q ∈ posts db') ∧
       length (posts db') = length (posts db) ∧
       reactions db' = reactions db ∧ replies db' = replies db) ∧
  ((∀ p, p ∈ posts db → Posts.id p ≠ id) →
     like_post id db = (Status 404 "Not found", db)).
Proof.
  intros Hnd. split.
  - intros p Hp Hid. unfold like_post; simpl.
    rewrite (filter_fmap_pre (like_row id)).
    assert (filter (λ x, Posts.id (like_row id x) = id) (posts db) = [p]) as ->.
    { rewrite <-(filter_unique Posts.id (posts db) p Hnd Hp).
      apply list_filter_iff. intros q. unfold like_row.
      case_decide; simpl; by rewrite Hid. }
    assert (Posts.likes (like_row id p) = Posts.likes p + 1) as Hlikes.
    { unfold like_row. by rewrite decide_True. }
    simpl. rewrite Hlikes. eexists. split; [done|]. simpl.
    split; [apply list_elem_of_fmap; by exists p|]. split; [done|].
    split; [unfold like_row; by rewrite decide_True|]. split.
    + intros q Hq Hne. apply list_elem_of_fmap. exists q. split; [|done].
      unfold like_row. by rewrite decide_False.
    + by rewrite length_fmap.
  - intros Hmissing. unfold like_post; simpl.
    rewrite (like_row_other id (posts db) Hmissing).
    rewrite filter_none by (intros p Hp; by apply Hmissing).
    by destruct db.
Qed.

Lemma like_post_adds_one_twice :
  NoDup (Posts.id <$> posts ten_likes_five_reposts) ∧
  (∃ db', like_post 1 ten_likes_five_reposts = (Json 11, db')) ∧
  like_post 9 ten_likes_five_reposts = (Status 404 "Not found", ten_likes_five_reposts).
Proof.
  assert (NoDup (Posts.id <$> posts ten_likes_five_reposts)) as Hnd.
  { apply (bool_decide_unpack (NoDup _)). by vm_compute. }
  destruct (like_post_adds_one 1 ten_likes_five_reposts Hnd) as [Hliked _].
  destruct (like_post_adds_one 9 ten_likes_five_reposts Hnd) as [_ Hmissing].
  split; [done|]. split.
  - destruct (Hliked (plain_post 1 10 0 100)) as (db' & Hlike & _);
      [repeat constructor|done|]. by exists db'.
  - apply Hmissing. intros p Hp.
    apply elem_of_cons in Hp as [->|Hp]; [done|].
    apply list_elem_of_singleton in Hp as ->. done.
Defined.

Lemma repost_row_other id (l : list Posts.row) :
  (∀ p, p ∈ l → Posts.id p ≠ id) → repost_row id <$> l = l.
Proof.
  intros Hl. rewrite <-(list_fmap_id l) at 2. apply list_fmap_ext.
  intros i p Hp. unfold repost_row. rewrite decide_False; [done|].
  apply Hl. by eapply list_elem_of_lookup_2.
Qed.

(** X7: in a table of distinct identifiers, reposting a post answers its
    number of reposts plus one and stores that number in its row, its likes
    untouched; every other row, the reactions and the replies stay as they
    were.  Reposting an identifier that no post carries answers 404 and
    changes nothing. *)
Theorem repost_post_adds_one (id : Z) (db : database) :
  NoDup (Posts.id <$> posts db) →
  (∀ p, p ∈ posts db → Posts.id p = id →
     ∃ db', repost_post id db = (Json (Posts.reposts p + 1), db') ∧
       repost_row id p ∈ posts db' ∧
       Posts.reposts (repost_row id p) = Posts.reposts p + 1 ∧
       Posts.likes (repost_row id p) = Posts.likes p ∧
       (∀ q, q ∈ posts db → Posts.id q ≠ id → q ∈ posts db') ∧
       length (posts db') = length (posts db) ∧
       reactions db' = reactions db ∧ replies db' = replies db) ∧
  ((∀ p, p ∈ posts db → Posts.id p ≠ id) →
     repost_post id db = (Status 404 "Not found", db)).
Proof.
  intros Hnd. split.
  - intros p Hp Hid. unfold repost_post; simpl.
    rewrite (filter_fmap_pre (repost_row id)).
    assert (filter (λ x, Posts.id (repost_row id x) = id) (posts db) = [p]) as ->.
    { rewrite <-(filter_unique Posts.id (posts db) p Hnd Hp).
      apply list_filter_iff. intros q. unfold repost_row.
      case_decide; simpl; by rewrite Hid. }
    assert (Posts.reposts (repost_row id p) = Posts.reposts p + 1) as Hlikes.
    { unfold repost_row. by rewrite decide_True. }
    simpl. rewrite Hlikes. eexists. split; [done|]. simpl.
    split; [apply list_elem_of_fmap; by exists p|]. split; [done|].
    split; [unfold repost_row; by rewrite decide_True|]. split.
    + intros q Hq Hne. apply list_elem_of_fmap. exists q. split; [|done].
      unfold repost_row. by rewrite decide_False.
    + by rewrite length_fmap.
  - intros Hmissing. unfold repost_post; simpl.
    rewrite (repost_row_other id (posts db) Hmissing).
    rewrite filter_none by (intros p Hp; by apply Hmissing).
    by destruct db.
Qed.

Lemma repost_post_adds_one_twice :
  NoDup (Posts.id <$> posts ten_likes_five_reposts) ∧
  (∃ db', repost_post 2 ten_likes_five_reposts = (Json 6, db')) ∧
  repost_post 9 ten_likes_five_reposts = (Status 404 "Not found", ten_likes_five_reposts).
Proof.
  assert (NoDup (Posts.id <$> posts ten_likes_five_reposts)) as Hnd.
  { apply (bool_decide_unpack (NoDup _)). by vm_compute. }
  destruct (repost_post_adds_one 2 ten_likes_five_reposts Hnd) as [Hliked _].
  destruct (repost_post_adds_one 9 ten_likes_five_reposts Hnd) as [_ Hmissing].
  split; [done|]. split.
  - destruct (Hliked (plain_post 2 0 5 200)) as (db' & Hlike & _);
      [repeat constructor|done|]. by exists db'.
  - apply Hmissing. intros p Hp.
    apply elem_of_cons in Hp as [->|Hp]; [done|].
    apply list_elem_of_singleton in Hp as ->. done.
Defined.

(** ** Reacting *)

Lemma foldl_insert_lookup (rows : list (string * Z)) t n :
  NoDup rows.*1 →
  foldl (λ (acc : gmap string Z) r, <[r.1 := r.2]> acc) ∅ rows !! t = Some n
  ↔ (t, n) ∈ rows.
Proof.
  induction rows as [|[t' n'] rows IH] using rev_ind; intros Hnd.
  { simpl. rewrite lookup_empty. split; [done|]. intros Hin. by apply elem_of_nil in Hin. }
  rewrite fmap_app in Hnd. apply NoDup_app in Hnd as (Hnd & Hfresh & _).
  rewrite foldl_app. cbn [foldl fst snd].
  rewrite elem_of_app, list_elem_of_singleton.
  destruct (decide (t' = t)) as [->|Hne].
  - rewrite lookup_insert_eq. split.
    + intros [= ->]. by right.
    + intros [Hin|[= ->]]; [|done]. exfalso.
      apply (Hfresh t); [|simpl; left].
      apply list_elem_of_fmap. by exists (t, n).
  - rewrite lookup_insert_ne, IH by done. split; [by left|].
    intros [?|[= ??]]; [done|congruence].
Qed.

Lemma count_reactions_of_type_app db id ty (extra : list Reactions.row) db' :
  reactions db' = reactions db ++ extra →
  count_reactions_of_type db' id ty
  = count_reactions_of_type db id ty
    + Z.of_nat (length (filter (λ r, Reactions.post_id r = id ∧ Reactions.type r = ty)
                               extra)).
Proof.
  intros Hr. unfold count_reactions_of_type. rewrite Hr, filter_app, length_app. lia.
Qed.

(** X8: a reaction of one of the five types is always stored, and the
    answer is the per-type count of the reactions that name the post once
    the new one is in: the count of the sent type has grown by one, the
    counts of the other types and of the other posts are as before, and a
    type that does not occur on the post is absent from the answer. *)
Theorem react_answers_new_counts (id : Z) (ty : string) (now : Z) (db : database) :
  ty ∈ validTypes →
  ∃ body db',
    react id (Some ty) now db = (Json body, db') ∧
    (∀ t, body !! t =
          if decide (count_reactions_of_type db' id t = 0) then None
          else Some (count_reactions_of_type db' id t)) ∧
    body !! ty = Some (count_reactions_of_type db id ty + 1) ∧
    (∀ t, t ≠ ty → count_reactions_of_type db' id t = count_reactions_of_type db id t) ∧
    (∀ id' t, id' ≠ id →
       count_reactions_of_type db' id' t = count_reactions_of_type db id' t) ∧
    posts db' = posts db ∧ replies db' = replies db.
Proof.
  intros Hty. unfold react. rewrite bool_decide_eq_true_2 by done.
  eexists _, _. split; [reflexivity|]. cbn [reactions posts replies].
  set (r := {| Reactions.id := _; Reactions.post_id := id; Reactions.type := ty;
               Reactions.timestamp := _ |}).
  set (db' := {| posts := posts db; reactions := reactions db ++ [r];
                 replies := replies db; posts_seq := posts_seq db;
                 reactions_seq := _; replies_seq := replies_seq db |}).
  assert (∀ id' t, count_reactions_of_type db' id' t
                   = count_reactions_of_type db id' t
                     + (if decide (id = id' ∧ ty = t) then 1 else 0)) as Hcount.
  { intros id' t. rewrite (count_reactions_of_type_app db id' t [r] db') by done.
    f_equal. rewrite filter_cons, filter_nil. simpl. by repeat case_decide. }
  assert (∀ t, foldl (λ (acc : gmap string Z) x, <[x.1 := x.2]> acc) ∅
                 (map_to_list (group_count
                    (Reactions.type <$>
                       filter (λ x, Reactions.post_id x = id) (reactions db ++ [r]))))
               !! t
             = if decide (count_reactions_of_type db' id t = 0) then None
               else Some (count_reactions_of_type db' id t)) as Hbody.
  { intros t. set (m := group_count _).
    assert (COALESCE0 (m !! t) = count_reactions_of_type db' id t) as Hm.
    { unfold m, count_reactions_of_type.
      rewrite group_count_coalesce, length_filter_fmap, list_filter_filter.
      do 2 f_equal. apply list_filter_iff. intros x. tauto. }
    destruct (m !! t) as [n|] eqn:Hlook.
    - pose proof (group_count_positive _ _ _ Hlook). simpl in Hm.
      rewrite decide_False by lia. rewrite <-Hm.
      apply foldl_insert_lookup; [apply NoDup_fst_map_to_list|].
      by apply elem_of_map_to_list.
    - simpl in Hm. rewrite decide_True by lia.
      apply eq_None_not_Some. intros [n Hn].
      apply foldl_insert_lookup in Hn; [|apply NoDup_fst_map_to_list].
      apply elem_of_map_to_list in Hn. congruence. }
  split; [done|]. split; [|split; [|split]].
  - rewrite Hbody, Hcount. rewrite (decide_True (P:=id = id ∧ ty = ty)) by done.
    pose proof (count_reactions_of_type_nonneg db id ty).
    by rewrite decide_False by lia.
  - intros t Hne. rewrite Hcount, decide_False; [lia|]. intros [_ ?]. done.
  - intros id' t Hne. rewrite Hcount, decide_False; [lia|]. intros [? _]. done.
  - done.
Qed.

Lemma react_answers_new_counts_heated :
  "angry" ∈ validTypes ∧
  (react 1 (Some "angry") 9000 heated).1
    = Json (<["angry" := 4]> (<["sad" := 2]> (<["fire" := 1]> ∅))) ∧
  ∃ body db', react 1 (Some "angry") 9000 heated = (Json body, db') ∧
              body !! "angry" = Some (count_reactions_of_type heated 1 "angry" + 1).
Proof.
  assert ("angry" ∈ validTypes) as Hty by (repeat constructor).
  split; [done|]. split; [by vm_compute|].
  destruct (react_answers_new_counts 1 "angry" 9000 heated Hty)
    as (body & db' & Hreact & _ & Hangry & _).
  exists body, db'. split; assumption.
Defined.

(** ** Deleting an existing post *)

Lemma filter_idemp {A} (P : A → Prop) `{∀ x, Decision (P x)} (l : list A) :
  filter P (filter P l) = filter P l.
Proof. by apply list_filter_filter_l. Qed.

(** X9: deleting a post that exists answers with its identifier and leaves
    the store without that post and without every reply and reaction that
    named it, all other rows and the sequences being kept; asking for the
    same deletion again answers 404 and changes nothing more. *)
Theorem delete_post_cascades (id : Z) (db : database) :
  id ∈ Posts.id <$> posts db →
  ∃ db',
    delete_post (Some id) db = (Json id, db') ∧
    (∀ p, p ∈ posts db' ↔ p ∈ posts db ∧ Posts.id p ≠ id) ∧
    (∀ r, r ∈ reactions db' ↔ r ∈ reactions db ∧ Reactions.post_id r ≠ id) ∧
    (∀ r, r ∈ replies db' ↔ r ∈ replies db ∧ Replies.post_id r ≠ id) ∧
    posts_seq db' = posts_seq db ∧ reactions_seq db' = reactions_seq db ∧
    replies_seq db' = replies_seq db ∧
    delete_post (Some id) db' = (Status 404 "Post not found", db').
Proof.
  intros Hid. apply list_elem_of_fmap in Hid as (p & Hp & Hin).
  unfold delete_post at 1.
  unfold delete_posts_row, delete_reactions, delete_replies; cbn [posts reactions replies
    posts_seq reactions_seq replies_seq].
  pose proof (length_filter_lt (λ q, Posts.id q ≠ id) (posts db) p Hin) as Hlt.
  rewrite decide_False by (specialize (Hlt ltac:(congruence)); lia).
  eexists. split; [reflexivity|]. cbn [posts reactions replies
    posts_seq reactions_seq replies_seq].
  split; [intros q; rewrite list_elem_of_filter; tauto|].
  split; [intros r; rewrite list_elem_of_filter; tauto|].
  split; [intros r; rewrite list_elem_of_filter; tauto|].
  repeat (split; [done|]).
  unfold delete_post, delete_posts_row, delete_reactions, delete_replies;
    cbn [posts reactions replies posts_seq reactions_seq replies_seq].
  rewrite !filter_idemp, Nat.sub_diag. done.
Qed.

Lemma delete_post_cascades_heated :
  1 ∈ Posts.id <$> posts heated ∧
  delete_post (Some 1) heated
    = (Json 1,
       {| posts := [plain_post 2 0 0 100];
          reactions :=
            [reaction_on 7 2 "angry"; reaction_on 8 2 "angry"; reaction_on 9 2 "angry";
             reaction_on 10 2 "sad"; reaction_on 11 2 "sad"; reaction_on 12 2 "love"];
          replies := []; posts_seq := 2; reactions_seq := 12; replies_seq := 0 |}) ∧
  ∃ db', delete_post (Some 1) heated = (Json 1, db') ∧
         delete_post (Some 1) db' = (Status 404 "Post not found", db').
Proof.
  assert (1 ∈ Posts.id <$> posts heated) as Hid by (repeat constructor).
  split; [done|]. split; [by vm_compute|].
  destruct (delete_post_cascades 1 heated Hid) as (db' & Hdelete & _ & _ & _ & _ & _ & _ & Hagain).
  exists db'. split; assumption.
Defined.

(** ** Replies *)

Global Instance follows_total {A} (terms : list (A → sqlkey)) : Total (follows terms).
Proof. intros a b. unfold follows. destruct (total (precedes terms) a b); auto. Qed.

Global Instance follows_trans {A} (terms : list (A → sqlkey)) :
  Transitive (follows terms).
Proof. intros a b c Hab Hbc. unfold follows in *. by transitivity b. Qed.

Lemma get_replies_scan_spec id db : get_replies id db (get_replies_scan id db).
Proof.
  split; [apply merge_sort_Permutation|].
  apply StronglySorted_merge_sort; apply _.
Qed.

Lemma follows_reply_timestamp a b :
  follows [by_reply_timestamp] a b → Replies.timestamp a ≤ Replies.timestamp b.
Proof.
  unfold follows. rewrite precedes_cons. unfold by_reply_timestamp.
  rewrite INTEGER_lt, bool_decide_eq_true.
  intros [?|[Heq _]]; [lia|]. apply INTEGER_inj in Heq. lia.
Qed.

(** X10: an answer of the replies route holds exactly the replies that
    name the post, each once, the older before the newer; it has as many
    rows as the feed shows in [reply_count] for that post, and none when no
    reply names the post. *)
Theorem replies_are_listed_oldest_first (id : Z) (db : database)
    (rows : list Replies.row) :
  get_replies id db rows →
  rows ≡ₚ filter (λ r, Replies.post_id r = id) (replies db) ∧
  (∀ r, r ∈ rows ↔ r ∈ replies db ∧ Replies.post_id r = id) ∧
  (∀ p, Posts.id p = id → reply_count (select_row db p) = Z.of_nat (length rows)) ∧
  (∀ l1 a l2 b l3, rows = l1 ++ a :: l2 ++ b :: l3 →
     Replies.timestamp a ≤ Replies.timestamp b) ∧
  ((∀ r, r ∈ replies db → Replies.post_id r ≠ id) → rows = []).
Proof.
  intros [Hperm Hsorted]. split; [done|]. split; [|split; [|split]].
  - intros r. rewrite Hperm, list_elem_of_filter. tauto.
  - intros p <-. rewrite select_row_reply_count. unfold count_replies.
    by rewrite Hperm.
  - intros l1 a l2 b l3 ->. apply follows_reply_timestamp.
    apply StronglySorted_app_1_r in Hsorted.
    apply StronglySorted_cons in Hsorted as [Hall _].
    rewrite Forall_forall in Hall. apply Hall.
    apply elem_of_app. right. left.
  - intros Hnone. apply Permutation_nil_r. rewrite Hperm.
    by rewrite filter_none.
Qed.

Lemma replies_are_listed_oldest_first_thread :
  get_replies 1 thread (get_replies_scan 1 thread) ∧
  Replies.id <$> get_replies_scan 1 thread = [2; 1] ∧
  reply_count (select_row thread (plain_post 1 0 0 100)) = 2.
Proof.
  split; [apply get_replies_scan_spec|]. split; [by vm_compute|].
  destruct (replies_are_listed_oldest_first 1 thread (get_replies_scan 1 thread)
              (get_replies_scan_spec 1 thread)) as (_ & _ & Hcount & _).
  rewrite (Hcount (plain_post 1 0 0 100) eq_refl). by vm_compute.
Defined.

(** X11: a reply that is accepted is appended to the replies table with
    the post identifier of the route and the trimmed text, which is not
    empty; posts and reactions are untouched; from then on every answer of
    the replies route for that post holds the new reply and is one row
    longer, and the answers for every other post are as before. *)
Theorem reply_is_listed (id : Z) (text : option jstext) (file : option string)
    (now : Z) (db db' : database) (r : Replies.row) :
  reply id text file now db = (Json r, db') →
  Replies.post_id r = id ∧ Replies.text r = trim (default [] text) ∧
  Replies.text r ≠ [] ∧
  replies db' = replies db ++ [r] ∧ posts db' = posts db ∧
  reactions db' = reactions db ∧
  count_replies db' id = count_replies db id + 1 ∧
  (∀ rows, get_replies id db' rows →
     r ∈ rows ∧
     length rows = S (length (filter (λ x, Replies.post_id x = id) (replies db)))) ∧
  (∀ id' rows, id' ≠ id → get_replies id' db' rows ↔ get_replies id' db rows).
Proof.
  unfold reply. destruct (is_blank text) eqn:Hblank; [done|].
  intros [= <- <-]. cbn [Replies.post_id Replies.text replies posts reactions].
  split; [done|]. split; [done|]. split; [by apply trim_default_nonempty|].
  repeat (split; [done|]). split; [|split].
  - unfold count_replies; cbn [replies].
    rewrite filter_app, length_app, filter_cons_True by done. simpl. lia.
  - intros rows [Hperm _]. cbn [replies] in Hperm.
    rewrite filter_app, filter_cons_True, filter_nil in Hperm by done. split.
    + rewrite Hperm. apply elem_of_app. right. left.
    + rewrite Hperm, length_app. simpl. lia.
  - intros id' rows Hne. unfold get_replies; cbn [replies].
    rewrite filter_app, filter_cons_False, filter_nil, app_nil_r; [done|].
    simpl. congruence.
Qed.

Lemma reply_is_listed_thread :
  let r := {| Replies.id := 4; Replies.post_id := 1; Replies.text := [121%N; 111%N];
              Replies.image := None; Replies.timestamp := 400 |} in
  ∃ db', reply 1 (Some [32%N; 121%N; 111%N]) None 400999 thread = (Json r, db') ∧
         Replies.id <$> get_replies_scan 1 db' = [2; 1; 4] ∧
         count_replies db' 1 = 3.
Proof.
  intros r.
  set (db' := (reply 1 (Some [32%N; 121%N; 111%N]) None 400999 thread).2).
  assert (reply 1 (Some [32%N; 121%N; 111%N]) None 400999 thread = (Json r, db'))
    as Hreply by (by vm_compute).
  exists db'. split; [done|]. split; [by vm_compute|].
  destruct (reply_is_listed 1 _ None 400999 thread db' r Hreply)
    as (_ & _ & _ & _ & _ & _ & Hcount & _).
  rewrite Hcount. by vm_compute.
Defined.

(** ** The feed: who is in it, and in what order *)

(** X12: at one evaluation time the three kinds of window are nested:
    whoever is in a [rising] answer is in every [hot] answer, and whoever is
    in a [hot] answer is in every answer of a strategy without window. *)
Theorem rising_within_hot_within_all (db : database) (now : Z) (p : Posts.row)
    (rising hot : list feed_item) (sort : option string) (all : list feed_item) :
  get_posts (Some "rising") db now rising →
  get_posts (Some "hot") db now hot →
  sortType_of sort ≠ "hot" → sortType_of sort ≠ "rising" →
  get_posts sort db now all →
  (in_feed p rising → in_feed p hot) ∧ (in_feed p hot → in_feed p all).
Proof.
  intros Hrising Hhot Hs1 Hs2 Hall.
  rewrite (in_feed_iff _ _ _ _ p Hrising), (in_feed_iff _ _ _ _ p Hhot),
    (in_feed_iff _ _ _ _ p Hall).
  change (sortType_of (Some "rising")) with "rising".
  change (sortType_of (Some "hot")) with "hot".
  rewrite timeFilter_rising, timeFilter_hot. split.
  - intros [? Hage]. split; [done|]. unfold MS_PER_HOUR in *. lia.
  - intros [? _]. split; [done|]. by apply timeFilter_unwindowed.
Qed.

Lemma rising_within_hot_within_all_three_ages :
  (λ i, Posts.id (post (row i))) <$> get_posts_scan (Some "rising") three_ages 25200000
    = [3] ∧
  (λ i, Posts.id (post (row i))) <$> get_posts_scan (Some "hot") three_ages 25200000
    = [3; 2] ∧
  (λ i, Posts.id (post (row i))) <$> get_posts_scan (Some "top") three_ages 25200000
    = [1; 2; 3] ∧
  (in_feed (plain_post 3 1 0 25000) (get_posts_scan (Some "rising") three_ages 25200000) →
   in_feed (plain_post 3 1 0 25000) (get_posts_scan (Some "hot") three_ages 25200000)).
Proof.
  split; [by vm_compute|]. split; [by vm_compute|]. split; [by vm_compute|].
  apply (rising_within_hot_within_all three_ages 25200000 (plain_post 3 1 0 25000)
           _ _ (Some "top") (get_posts_scan (Some "top") three_ages 25200000));
    first [apply get_posts_scan_spec | intros Heq; by vm_compute in Heq].
Defined.

Lemma respond_rows db rows : row <$> respond db rows = rows.
Proof.
  unfold respond. rewrite <-list_fmap_compose.
  transitivity (id <$> rows); [by apply list_fmap_ext|apply list_fmap_id].
Qed.

(** In an answer, an item stands before another only if the ordering lets
    its row precede the other's. *)
Lemma answer_order sort db now answer l1 a l2 b l3 :
  get_posts sort db now answer → answer = l1 ++ a :: l2 ++ b :: l3 →
  precedes (order (sortType_of sort) now) (row a) (row b).
Proof.
  intros (rows & [_ Hsorted] & ->) Hsplit.
  apply (f_equal (fmap row)) in Hsplit.
  rewrite respond_rows, fmap_app, fmap_cons, fmap_app, fmap_cons in Hsplit.
  rewrite Hsplit in Hsorted. by eapply sorted_not_behind.
Qed.

(** X13: under [new], and under every name that selects none of [rising],
    [controversial], [top], [best], [hot], an item never stands before an
    item of a later timestamp: the answer runs from the latest second to
    the earliest. *)
Theorem default_answer_is_latest_first (sort : option string) (db : database)
    (now : Z) (answer l1 l2 l3 : list feed_item) (a b : feed_item) :
  sortType_of sort ∉ ["rising"; "controversial"; "top"; "best"; "hot"] →
  get_posts sort db now answer → answer = l1 ++ a :: l2 ++ b :: l3 →
  Posts.timestamp (post (row b)) ≤ Posts.timestamp (post (row a)).
Proof.
  intros Hs Hanswer Hsplit.
  pose proof (answer_order _ _ _ _ _ _ _ _ _ Hanswer Hsplit) as Hab.
  rewrite (order_default _ now Hs), precedes_cons in Hab.
  unfold by_timestamp in Hab. rewrite INTEGER_lt, bool_decide_eq_true in Hab.
  destruct Hab as [?|[Heq _]]; [lia|]. apply INTEGER_inj in Heq. lia.
Qed.

Lemma default_answer_is_latest_first_three_ages :
  (sortType_of None ∉ ["rising"; "controversial"; "top"; "best"; "hot"]) ∧
  (λ i, Posts.id (post (row i))) <$> get_posts_scan None three_ages 0 = [3; 2; 1] ∧
  ∀ l1 a l2 b l3, get_posts_scan None three_ages 0 = l1 ++ a :: l2 ++ b :: l3 →
    Posts.timestamp (post (row b)) ≤ Posts.timestamp (post (row a)).
Proof.
  assert (sortType_of None ∉ ["rising"; "controversial"; "top"; "best"; "hot"])
    as Hs by (by apply not_elem_of_by_decide; vm_compute).
  split; [done|]. split; [by vm_compute|]. intros l1 a l2 b l3.
  apply (default_answer_is_latest_first None three_ages 0 _ l1 l2 l3 a b Hs).
  apply get_posts_scan_spec.
Defined.

(** X14: under [top] and under [rising] an item never stands before an item
    of larger engagement; under [rising], among items of equal engagement,
    never before one of a later timestamp. *)
Theorem top_and_rising_are_most_engaged_first (sort : string) (db : database)
    (now : Z) (answer l1 l2 l3 : list feed_item) (a b : feed_item) :
  sort = "top" ∨ sort = "rising" →
  get_posts (Some sort) db now answer → answer = l1 ++ a :: l2 ++ b :: l3 →
  engagement (row b) ≤ engagement (row a) ∧
  (sort = "rising" → engagement (row b) = engagement (row a) →
     Posts.timestamp (post (row b)) ≤ Posts.timestamp (post (row a))).
Proof.
  intros Hsort Hanswer Hsplit.
  pose proof (answer_order _ _ _ _ _ _ _ _ _ Hanswer Hsplit) as Hab.
  destruct Hsort as [->| ->].
  - change (order (sortType_of (Some "top")) now) with [by_engagement] in Hab.
    rewrite precedes_cons in Hab. unfold by_engagement in Hab.
    rewrite INTEGER_lt, bool_decide_eq_true in Hab. split; [|done].
    destruct Hab as [?|[Heq _]]; [lia|]. apply INTEGER_inj in Heq. lia.
  - change (order (sortType_of (Some "rising")) now)
      with [by_engagement; by_timestamp] in Hab.
    rewrite !precedes_cons in Hab. unfold by_engagement, by_timestamp in Hab.
    rewrite !INTEGER_lt, !bool_decide_eq_true in Hab.
    destruct Hab as [?|[Heq Hts]].
    + split; [lia|]. intros _ ?. lia.
    + apply INTEGER_inj in Heq. split; [lia|]. intros _ _.
      destruct Hts as [?|[Heq' _]]; [lia|]. apply INTEGER_inj in Heq'. lia.
Qed.

Lemma top_and_rising_are_most_engaged_first_ten :
  ("top" = "top" ∨ "top" = "rising") ∧
  (λ i, engagement (row i)) <$> get_posts_scan (Some "top") loved_and_angry 0 = [5; 0] ∧
  ∀ l1 a l2 b l3,
    get_posts_scan (Some "top") loved_and_angry 0 = l1 ++ a :: l2 ++ b :: l3 →
    engagement (row b) ≤ engagement (row a).
Proof.
  split; [by left|]. split; [by vm_compute|]. intros l1 a l2 b l3 Hsplit.
  apply (top_and_rising_are_most_engaged_first "top" loved_and_angry 0 _ l1 l2 l3 a b
           (or_introl eq_refl) (get_posts_scan_spec _ _ _) Hsplit).
Defined.

(** X15: an answer carries each post that passes the strategy's time
    filter exactly as often as the posts table holds it, and no other post;
    it is never longer than the table, and it is empty when the table
    is. *)
Theorem answer_lists_each_selected_post_once (sort : option string) (db : database)
    (now : Z) (answer : list feed_item) :
  get_posts sort db now answer →
  (λ i, post (row i)) <$> answer
    ≡ₚ filter (λ p, timeFilter (sortType_of sort) now p = true) (posts db) ∧
  (length answer ≤ length (posts db))%nat ∧
  (posts db = [] → answer = []).
Proof.
  intros (rows & [Hperm _] & ->).
  assert ((λ i, post (row i)) <$> respond db rows
            ≡ₚ filter (λ p, timeFilter (sortType_of sort) now p = true) (posts db))
    as Hposts.
  { rewrite (list_fmap_compose row post), respond_rows, Hperm.
    unfold selected_rows. rewrite <-list_fmap_compose.
    set (l := filter _ (posts db)).
    assert (post ∘ select_row db <$> l = l) as ->; [|done].
    transitivity (id <$> l); [by apply list_fmap_ext|apply list_fmap_id]. }
  split; [done|]. split.
  - rewrite <-(length_fmap (λ i, post (row i))), Hposts. apply length_filter.
  - intros Hempty. rewrite Hempty in Hposts.
    apply Permutation_nil_r in Hposts. by apply fmap_nil_inv in Hposts.
Qed.

Lemma answer_lists_each_selected_post_once_three_ages :
  get_posts (Some "hot") three_ages 25200000
    (get_posts_scan (Some "hot") three_ages 25200000) ∧
  (λ i, post (row i)) <$> get_posts_scan (Some "hot") three_ages 25200000
    ≡ₚ [plain_post 2 3 0 10000; plain_post 3 1 0 25000] ∧
  get_posts_scan (Some "hot") empty_store 0 = [].
Proof.
  split; [apply get_posts_scan_spec|]. split.
  - destruct (answer_lists_each_selected_post_once (Some "hot") three_ages 25200000
                _ (get_posts_scan_spec _ _ _)) as (Hperm & _).
    by rewrite Hperm.
  - apply (answer_lists_each_selected_post_once (Some "hot") empty_store 0
             _ (get_posts_scan_spec _ _ _)). done.
Defined.

(** ** A new post in the feed *)

Lemma select_row_eq db p :
  select_row db p =
  {| post := p;
     reaction_count := count_reactions db (Posts.id p);
     reply_count := count_replies db (Posts.id p);
     love_count := count_reactions_of_type db (Posts.id p) "love";
     happy_count := count_reactions_of_type db (Posts.id p) "haha";
     angry_count := count_reactions_of_type db (Posts.id p) "angry";
     sad_count := count_reactions_of_type db (Posts.id p) "sad" |}.
Proof.
  pose proof (select_row_reaction_count db p) as Hr.
  pose proof (select_row_reply_count db p) as Hy.
  destruct (select_row_typed_counts db p) as (Hl & Hh & Ha & Hs).
  pose proof (select_row_post db p) as Hp.
  destruct (select_row db p). simpl in *. congruence.
Qed.

Lemma timeFilter_recent sortType now later p :
  Posts.timestamp p = CURRENT_TIMESTAMP now →
  now ≤ later ≤ now + 2 * MS_PER_HOUR →
  timeFilter sortType later p = true.
Proof.
  intros Hts Hlater. pose proof (CURRENT_TIMESTAMP_bounds now) as Hnow.
  assert (age later p < 2 * MS_PER_HOUR + 1000) as Hage.
  { unfold age, ms_of_timestamp. rewrite Hts. lia. }
  destruct (decide (sortType = "rising")) as [->|Hr]; [by apply timeFilter_rising|].
  destruct (decide (sortType = "hot")) as [->|Hh].
  - apply timeFilter_hot. unfold MS_PER_HOUR in *. lia.
  - by apply timeFilter_unwindowed.
Qed.

(** The identifier handed to a new post is named by no reaction and no
    reply of a store whose references are live. *)
Lemma new_post_unreferenced text mood file now db :
  references_ok db →
  let id := Posts.id (new_post text mood file now db) in
  count_reactions db id = 0 ∧ count_replies db id = 0.
Proof.
  intros [Hr Hy] id. rewrite Forall_forall in Hr. rewrite Forall_forall in Hy.
  unfold count_reactions, count_replies.
  rewrite !filter_none; [done| |].
  - intros r Hin Heq. apply Hy in Hin. rewrite Heq in Hin.
    apply next_rowid_gt_ids with (seq := posts_seq db) in Hin.
    unfold id, new_post in Hin. simpl in Hin. lia.
  - intros r Hin Heq. apply Hr in Hin. rewrite Heq in Hin.
    apply next_rowid_gt_ids with (seq := posts_seq db) in Hin.
    unfold id, new_post in Hin. simpl in Hin. lia.
Qed.

(** X16: in a store whose reactions and replies all name existing posts, a
    post that has just been accepted is in every answer of the feed, under
    every strategy, for the two hours that follow, and until somebody
    reacts or replies its item shows zero for the six counts and an empty
    [reactions] object. *)
Theorem new_post_enters_every_feed (text : option jstext) (mood : option string)
    (file : option string) (now : Z) (db db' : database) (p : Posts.row)
    (sort : option string) (later : Z) (answer : list feed_item) :
  references_ok db →
  create_post text mood file now db = (Json p, db') →
  now ≤ later ≤ now + 2 * MS_PER_HOUR →
  get_posts sort db' later answer →
  {| row := {| post := p; reaction_count := 0; reply_count := 0; love_count := 0;
               happy_count := 0; angry_count := 0; sad_count := 0 |};
     item_reactions := ∅ |} ∈ answer.
Proof.
  intros Hrefs Hcreate Hlater (rows & Hrows & ->).
  apply create_post_accepted in Hcreate as (_ & _ & Hp & ->).
  set (db' := {| posts := posts db ++ [p]; reactions := reactions db;
                 replies := replies db; posts_seq := Posts.id p;
                 reactions_seq := reactions_seq db; replies_seq := replies_seq db |})
    in *.
  destruct (new_post_unreferenced text mood file now db Hrefs) as [Hnone Hnoreply].
  rewrite <-Hp in Hnone, Hnoreply.
  assert (∀ ty, count_reactions_of_type db' (Posts.id p) ty = 0) as Hzero.
  { intros ty. pose proof (count_reactions_of_type_le db' (Posts.id p) ty).
    pose proof (count_reactions_of_type_nonneg db' (Posts.id p) ty).
    change (count_reactions db' (Posts.id p)) with (count_reactions db (Posts.id p)) in *.
    lia. }
  assert (select_row db' p ∈ rows) as Hin.
  { apply (baseQuery_elem _ _ _ _ _ Hrows). exists p. split; [done|]. split.
    - simpl. apply elem_of_app. right. left.
    - apply (timeFilter_recent _ now); [by rewrite Hp|done]. }
  apply respond_elem. exists (select_row db' p). split; [done|].
  rewrite select_row_eq at 1. rewrite !Hzero.
  change (count_reactions db' (Posts.id p)) with (count_reactions db (Posts.id p)).
  change (count_replies db' (Posts.id p)) with (count_replies db (Posts.id p)).
  rewrite Hnone, Hnoreply. f_equal.
  symmetry. apply map_eq. intros ty. rewrite default_empty_lookup, lookup_empty.
  rewrite select_row_post, getReactionsForPosts_read.
  - by rewrite decide_True.
  - apply list_elem_of_fmap. by exists (select_row db' p).
Qed.

Lemma new_post_enters_every_feed_hot :
  references_ok loved_and_angry ∧
  ∃ p db',
    create_post (Some [104%N; 105%N]) None None 500000 loved_and_angry = (Json p, db') ∧
    Posts.id p = 3 ∧
    {| row := {| post := p; reaction_count := 0; reply_count := 0; love_count := 0;
                 happy_count := 0; angry_count := 0; sad_count := 0 |};
       item_reactions := ∅ |} ∈ get_posts_scan (Some "hot") db' 600000.
Proof.
  assert (references_ok loved_and_angry) as Hrefs by (split; repeat constructor).
  split; [done|].
  set (p := new_post (Some [104%N; 105%N]) None None 500000 loved_and_angry).
  set (db' := (create_post (Some [104%N; 105%N]) None None 500000 loved_and_angry).2).
  assert (create_post (Some [104%N; 105%N]) None None 500000 loved_and_angry
          = (Json p, db')) as Hcreate by (by vm_compute).
  exists p, db'. split; [done|]. split; [by vm_compute|].
  apply (new_post_enters_every_feed _ _ _ 500000 loved_and_angry db' p
           (Some "hot") 600000 _ Hrefs Hcreate).
  - by vm_compute.
  - apply get_posts_scan_spec.
Defined.

(** ** Identifiers are not handed out twice *)

Lemma handle_posts_seq q now db : posts_seq db ≤ posts_seq (handle q now db).
Proof.
  destruct q as [text mood file|id|id|id type|id text file|postId]; simpl.
  - destruct (create_post text mood file now db) as [[p|code msg] db'] eqn:Hcreate.
    + apply create_post_accepted in Hcreate as (_ & _ & -> & ->). simpl.
      pose proof (next_rowid_gt_seq (posts_seq db) (Posts.id <$> posts db)). lia.
    + by apply create_post_refused in Hcreate as ->.
  - by rewrite like_post_store.
  - by rewrite repost_post_store.
  - unfold react. destruct type as [ty|]; [|done]. by case_bool_decide.
  - unfold reply. by destruct (is_blank text).
  - rewrite delete_post_store. by destruct postId.
Qed.

(** X17: the identifier given to a post is never given again: whatever
    requests follow, deletions of that very post included, every post
    accepted later gets a larger identifier. *)
Theorem post_ids_are_never_reused (text : option jstext) (mood : option string)
    (file : option string) (now : Z) (db db1 : database) (p : Posts.row)
    (qs : list (request * Z))
    (text2 : option jstext) (mood2 : option string) (file2 : option string)
    (now2 : Z) (db2 : database) (p2 : Posts.row) :
  create_post text mood file now db = (Json p, db1) →
  create_post text2 mood2 file2 now2 (run qs db1) = (Json p2, db2) →
  Posts.id p < Posts.id p2.
Proof.
  intros Hfirst Hsecond.
  apply create_post_accepted in Hfirst as (_ & _ & _ & ->).
  apply create_post_accepted in Hsecond as (_ & _ & -> & _). simpl.
  match goal with |- _ < next_rowid (posts_seq ?d) ?ids =>
    pose proof (next_rowid_gt_seq (posts_seq d) ids) as Hnext;
    assert (Posts.id p ≤ posts_seq d) as Hseq; [|lia] end.
  apply (run_invariant (λ d, Posts.id p ≤ posts_seq d)); [|done].
  intros q t d Hd. pose proof (handle_posts_seq q t d). lia.
Qed.

Lemma post_ids_are_never_reused_after_delete :
  ∃ p db1 p2 db2,
    create_post (Some [97%N]) None None 1000 empty_store = (Json p, db1) ∧
    create_post (Some [98%N]) None None 3000 (run [(Delete (Some 1), 2000)] db1)
      = (Json p2, db2) ∧
    Posts.id p < Posts.id p2 ∧
    Posts.id p = 1 ∧ Posts.id p2 = 2 ∧ Posts.id <$> posts db2 = [2].
Proof.
  set (r1 := create_post (Some [97%N]) None None 1000 empty_store).
  set (r2 := create_post (Some [98%N]) None None 3000
               (run [(Delete (Some 1), 2000)] r1.2)).
  exists (new_post (Some [97%N]) None None 1000 empty_store), r1.2,
         (new_post (Some [98%N]) None None 3000 (run [(Delete (Some 1), 2000)] r1.2)),
         r2.2.
  assert (r1 = (Json (new_post (Some [97%N]) None None 1000 empty_store), r1.2))
    as H1 by (by vm_compute).
  assert (r2 = (Json (new_post (Some [98%N]) None None 3000
                        (run [(Delete (Some 1), 2000)] r1.2)), r2.2))
    as H2 by (by vm_compute).
  split; [done|]. split; [done|].
  pose proof (post_ids_are_never_reused _ _ _ _ _ _ _ _ _ _ _ _ _ _ H1 H2) as Hlt.
  split; [exact Hlt|]. split; [by vm_compute|]. split; [by vm_compute|]. by vm_compute.
Defined.

(** ** A reaction in the feed *)

(** X18: a stored reaction raises by one the [reaction_count], and so the
    engagement, that the feed query computes for the post it names, leaves
    that post's [reply_count] alone, and leaves the row of every other post
    exactly as it was. *)
Theorem reaction_raises_engagement (id : Z) (ty : string) (now : Z) (db : database)
    (p : Posts.row) :
  ty ∈ validTypes →
  let db' := (react id (Some ty) now db).2 in
  (Posts.id p = id →
     reaction_count (select_row db' p) = reaction_count (select_row db p) + 1 ∧
     reply_count (select_row db' p) = reply_count (select_row db p) ∧
     engagement (select_row db' p) = engagement (select_row db p) + 1) ∧
  (Posts.id p ≠ id → select_row db' p = select_row db p).
Proof.
  intros Hty db'. subst db'. unfold react.
  rewrite bool_decide_eq_true_2 by done. cbn [snd].
  set (r := {| Reactions.id := next_rowid (reactions_seq db) (Reactions.id <$> reactions db);
               Reactions.post_id := id; Reactions.type := ty;
               Reactions.timestamp := CURRENT_TIMESTAMP now |}).
  set (db' := {| posts := posts db; reactions := reactions db ++ [r];
                 replies := replies db; posts_seq := posts_seq db;
                 reactions_seq := _; replies_seq := replies_seq db |}).
  assert (∀ id', count_reactions db' id'
                 = count_reactions db id' + (if decide (id = id') then 1 else 0))
    as Hcount.
  { intros id'. unfold count_reactions, db'; cbn [reactions].
    rewrite filter_app, length_app, filter_cons, filter_nil. simpl.
    case_decide; simpl; lia. }
  assert (∀ id' t, id' ≠ id →
            count_reactions_of_type db' id' t = count_reactions_of_type db id' t)
    as Htyped.
  { intros id' t Hne. rewrite (count_reactions_of_type_app db id' t [r] db') by done.
    rewrite filter_cons_False; [simpl; lia|]. simpl. intros [? _]. done. }
  assert (∀ id', count_replies db' id' = count_replies db id') as Hreplies by done.
  split.
  - intros <-. unfold engagement.
    rewrite !select_row_reaction_count, !select_row_reply_count, !select_row_post.
    rewrite Hcount, Hreplies, decide_True by done. lia.
  - intros Hne. rewrite !select_row_eq, Hcount, Hreplies, !Htyped by done.
    rewrite decide_False by done. by rewrite Z.add_0_r.
Qed.

Lemma reaction_raises_engagement_loved :
  "fire" ∈ validTypes ∧
  engagement (select_row loved_and_angry (plain_post 1 0 0 100)) = 5 ∧
  engagement (select_row (react 1 (Some "fire") 9000 loved_and_angry).2
                (plain_post 1 0 0 100)) = 6.
Proof.
  assert ("fire" ∈ validTypes) as Hty by (repeat constructor).
  split; [done|]. split; [by vm_compute|].
  destruct (reaction_raises_engagement 1 "fire" 9000 loved_and_angry
              (plain_post 1 0 0 100) Hty) as [Hraised _].
  destruct (Hraised eq_refl) as (_ & _ & ->). by vm_compute.
Defined.

(** ** The entries of the reactions map *)



